(** * Authorization and token-lifecycle core of the Django/DRF backend

    A shallow embedding of
      - apps/core/permissions.py          (permission cache, decorator, DRF gate)
      - apps/users/infraestructure/cache.py (UserPermissionCache)
      - apps/users/application/services.py  (UserService, UserPermissionService)
      - apps/auth/application/services.py   (AuthService)
      - apps/core/models.py                 (SoftDeleteModel)
      - apps/users/domain/models.py         (UserProfile and its signals)
    over an explicit world state: the database tables, the key/value cache
    and the clock.  Python exceptions are values of [Exc]; every operation
    is a computation in the state-and-exception monad [M]. *)

From stdpp Require Import gmap strings list pretty.
From Stdlib Require Import ZArith Ascii.

Local Open Scope Z_scope.

(** ** Settings (config/settings/base.py) *)

Module settings.
(** [SIMPLE_JWT]: lifetimes in seconds. *)
Definition ACCESS_TOKEN_LIFETIME : Z := 2 * 60.
Definition REFRESH_TOKEN_LIFETIME : Z := 5 * 60.
Definition ROTATE_REFRESH_TOKENS : bool := true.
Definition BLACKLIST_AFTER_ROTATION : bool := true.
(** ['rest_framework_simplejwt.token_blacklist' in INSTALLED_APPS]. *)
Definition token_blacklist_installed : bool := true.
(** Internationalisation; [MIDDLEWARE] has no [LocaleMiddleware], so the
    language of the settings is the active one in every request. *)
Definition LANGUAGE_CODE : string := "es-do".
Definition USE_I18N : bool := true.
End settings.

(** ** Data model *)

(** A row of [auth_user].  A Python [User] object is a copy of such a row;
    its many-to-many relations and its profile are read from the tables of
    the world through [uid]. *)
Record User := mkUser {
  uid : nat;
  username : string;
  password : string;          (* the stored hash *)
  is_active : bool;
  is_superuser : bool;
  last_login : option Z;
}.

Record Group := mkGroup {
  group_name : string;
  group_permissions : gset string;   (* 'app_label.codename' keys *)
}.

(** [UserProfile(BaseModel)]: the timestamps of [TimestampedModel] and the
    marker of [SoftDeleteModel]; the free-text fields play no role here. *)
Record UserProfile := mkProfile {
  created_at : Z;
  updated_at : Z;
  deleted_at : option Z;
}.

(** [request.user] / [self.user]: nothing, Django's [AnonymousUser], or an
    authenticated [User] object. *)
Inductive RequestUser :=
| NoUser
| AnonymousUser
| Authenticated (u : User).

(** Python exceptions, with the message they are raised with. *)
Inductive Exc :=
| PermissionDenied (detail : string)
| ValidationError (detail : string)
| AuthenticationFailed (detail : string)
| TokenError (message : string)
| DoesNotExist (model : string)
| AttributeError (message : string).

(** JWT claims of a token and the encoded token as a client presents it:
    an arbitrary string that does not decode, or claims with a signature
    that is or is not the server's. *)
Inductive TokenType := access_type | refresh_type.

Record Payload := mkPayload {
  token_type : TokenType;
  user_id : nat;
  exp : Z;
  jti : nat;
}.

Inductive JWT :=
| Malformed (raw : string)
| Signed (by_server : bool) (claims : Payload).

(** The world: clock, database tables, the cache store and the source of
    fresh token ids.  A cache entry for key ['user_permissions:<id>'] is
    indexed by the id and carries the instant at which it expires. *)
Record World := mkWorld {
  now : Z;
  auth_user : gmap nat User;
  auth_user_groups : gmap nat (gset nat);
  auth_user_user_permissions : gmap nat (gset string);
  auth_group : gmap nat Group;
  auth_permission : gset string;
  user_profiles : gmap nat UserProfile;
  blacklistedtoken : gset nat;
  cache : gmap nat (gset string * Z);
  next_jti : nat;
}.

Definition set_now (t : Z) (w : World) : World :=
  mkWorld t (auth_user w) (auth_user_groups w) (auth_user_user_permissions w)
    (auth_group w) (auth_permission w) (user_profiles w) (blacklistedtoken w)
    (cache w) (next_jti w).
Definition set_auth_user (m : gmap nat User) (w : World) : World :=
  mkWorld (now w) m (auth_user_groups w) (auth_user_user_permissions w)
    (auth_group w) (auth_permission w) (user_profiles w) (blacklistedtoken w)
    (cache w) (next_jti w).
Definition set_auth_user_groups (m : gmap nat (gset nat)) (w : World) : World :=
  mkWorld (now w) (auth_user w) m (auth_user_user_permissions w)
    (auth_group w) (auth_permission w) (user_profiles w) (blacklistedtoken w)
    (cache w) (next_jti w).
Definition set_user_profiles (m : gmap nat UserProfile) (w : World) : World :=
  mkWorld (now w) (auth_user w) (auth_user_groups w) (auth_user_user_permissions w)
    (auth_group w) (auth_permission w) m (blacklistedtoken w)
    (cache w) (next_jti w).
Definition set_blacklistedtoken (s : gset nat) (w : World) : World :=
  mkWorld (now w) (auth_user w) (auth_user_groups w) (auth_user_user_permissions w)
    (auth_group w) (auth_permission w) (user_profiles w) s
    (cache w) (next_jti w).
Definition set_cache (c : gmap nat (gset string * Z)) (w : World) : World :=
  mkWorld (now w) (auth_user w) (auth_user_groups w) (auth_user_user_permissions w)
    (auth_group w) (auth_permission w) (user_profiles w) (blacklistedtoken w)
    c (next_jti w).
Definition set_next_jti (n : nat) (w : World) : World :=
  mkWorld (now w) (auth_user w) (auth_user_groups w) (auth_user_user_permissions w)
    (auth_group w) (auth_permission w) (user_profiles w) (blacklistedtoken w)
    (cache w) n.

(** Time passing between two calls ([dt] seconds). *)
Definition tick (dt : Z) (w : World) : World := set_now (now w + dt) w.

(** ** The state-and-exception monad *)

Definition M (A : Type) : Type := World → World * (Exc + A).

Definition ret {A} (a : A) : M A := λ w, (w, inr a).
Definition raise {A} (e : Exc) : M A := λ w, (w, inl e).
Definition bind {A B} (m : M A) (k : A → M B) : M B :=
  λ w, match m w with
       | (w', inr a) => k a w'
       | (w', inl e) => (w', inl e)
       end.
Definition gets {A} (f : World → A) : M A := λ w, (w, inr (f w)).
Definition modify (f : World → World) : M unit := λ w, (f w, inr tt).
(** [try: m except h]: [handler e = None] lets [e] propagate. *)
Definition try_except {A} (m : M A) (handler : Exc → option (M A)) : M A :=
  λ w, match m w with
       | (w', inl e) => match handler e with
                        | Some h => h w'
                        | None => (w', inl e)
                        end
       | r => r
       end.

Notation "'do' x <- m ; k" := (bind m (λ x, k))
  (at level 10, x name, m at level 100, k at level 200,
   format "'[v' 'do'  x  <-  m ; '/' k ']'").
Notation "m ;; k" := (bind m (λ _, k))
  (at level 100, k at level 200, right associativity).

(** Final world and outcome of a run. *)
Definition world_of {A} (r : World * (Exc + A)) : World := r.1.
Definition outcome {A} (r : World * (Exc + A)) : Exc + A := r.2.

(** ** Framework collaborators (Django auth, Django cache) *)

Module django.

(** [django.core.cache.cache]: get / set-with-timeout / delete. *)
Module cache_api.
Definition get (key : nat) : M (option (gset string)) :=
  gets (λ w, match cache w !! key with
             | Some (v, expires) => if bool_decide (now w < expires) then Some v else None
             | None => None
             end).
Definition set (key : nat) (v : gset string) (timeout : Z) : M unit :=
  modify (λ w, set_cache (<[key := (v, now w + timeout)]> (cache w)) w).
Definition delete (key : nat) : M unit :=
  modify (λ w, set_cache (base.delete key (cache w)) w).
End cache_api.

(** [Permission.objects.filter(group__user=user)]: the grants of every
    role the user is a member of. *)
Definition group_permissions_of (w : World) (id : nat) : gset string :=
  ⋃ ((λ gid, default ∅ (group_permissions <$> auth_group w !! gid))
       <$> elements (auth_user_groups w !!! id)).

(** [user.user_permissions.all()]: the direct grants. *)
Definition user_permissions_of (w : World) (id : nat) : gset string :=
  auth_user_user_permissions w !!! id.

(** [User.get_all_permissions()] through [ModelBackend], asked of an
    object for the first time: nothing for an inactive user, every
    permission for a superuser, otherwise direct grants and role grants.
    The set an object remembers once it has been asked is modelled in
    [user_object] below. *)
Definition all_permissions_of (w : World) (u : User) : gset string :=
  if negb (is_active u) then ∅
  else if is_superuser u then auth_permission w
  else user_permissions_of w (uid u) ∪ group_permissions_of w (uid u).

Definition get_all_permissions (u : User) : M (gset string) :=
  gets (λ w, all_permissions_of w u).

(** [User.objects.get(id=...)]. *)
Definition User_objects_get (id : nat) : M User :=
  do row <- gets (λ w, auth_user w !! id);
  match row with
  | Some u => ret u
  | None => raise (DoesNotExist "User")
  end.

(** [Group.objects.get(id=...)], returning the id of the row found. *)
Definition Group_objects_get (id : nat) : M nat :=
  do row <- gets (λ w, auth_group w !! id);
  match row with
  | Some _ => ret id
  | None => raise (DoesNotExist "Group")
  end.

(** [Group.objects.filter(name=...).first()]: the matching row of least
    primary key, if any. *)
Definition Group_objects_filter_name_first (name : string) : M (option nat) :=
  gets (λ w,
    match elements (dom (filter (λ kv, group_name kv.2 = name) (auth_group w))) with
    | [] => None
    | i :: rest => Some (foldr Nat.min i rest)
    end).

(** [User.objects.filter(is_active=True).count()]. *)
Definition User_objects_filter_active_count : M nat :=
  gets (λ w, size (filter (λ kv, is_active kv.2 = true) (auth_user w))).

End django.

(** ** apps/core/permissions.py *)

Module core_permissions.

Definition get_user_permissions_cached (user : RequestUser) : M (gset string) :=
  match user with
  | Authenticated u =>
      let cache_key := uid u in
      do cached_perms <- django.cache_api.get cache_key;
      match cached_perms with
      | Some perms => ret perms
      | None =>
          do perms <- django.get_all_permissions u;
          django.cache_api.set cache_key perms 3600 ;;
          ret perms
      end
  | _ => ret ∅
  end.

Definition invalidate_user_permissions_cache (user_id : nat) : M unit :=
  django.cache_api.delete user_id.

Definition has_permission (user : RequestUser) (permission_codename : string) : M bool :=
  do perms <- get_user_permissions_cached user;
  ret (bool_decide (permission_codename ∈ perms)).

(** The decorator: [self] always has the attribute [user], so only the
    permission test can stop the call. *)
Definition require_permission {A} (permission_codename : string)
    (self_user : RequestUser) (func : M A) : M A :=
  do ok <- has_permission self_user permission_codename;
  if negb ok
  then raise (PermissionDenied ("No tienes permiso: " +:+ permission_codename))
  else func.

(** What a view declares for one action: a single permission string or a
    list of them. *)
Inductive ActionPerms :=
| PermStr (perm : string)
| PermList (perms : list string).

(** The attributes of the view read by the gate; [None] when the view
    has no such attribute. *)
Record View := mkView {
  required_permissions : option (gmap string ActionPerms);
  action : option string;
}.

(** Python truthiness of [action]: [None] and the empty string are false. *)
Definition truthy_action (a : option string) : bool :=
  match a with
  | None => false
  | Some s => negb (bool_decide (s = ""))
  end.

Module HasPermission.
Definition has_permission (request_user : RequestUser) (view : View) : M bool :=
  match request_user with
  | Authenticated u =>
      if is_superuser u then ret true
      else
        let required_perms := default ∅ (required_permissions view) in
        let action := action view in
        (* [not action or action not in required_perms] *)
        if negb (truthy_action action) then ret true
        else
          match action ≫= (λ a, required_perms !! a) with
          | None => ret true
          | Some declared =>
              do user_perms <- get_user_permissions_cached request_user;
              let action_perms :=
                match declared with
                | PermStr s => [s]
                | PermList l => l
                end in
              ret (forallb (λ perm, bool_decide (perm ∈ user_perms)) action_perms)
          end
  | _ => ret false
  end.
End HasPermission.

End core_permissions.


(** ** apps/core/models.py and apps/users/domain/models.py *)

Module models.

(** [hasattr(user, 'profile')]: the one-to-one row exists. *)
Definition has_profile (id : nat) : M bool :=
  gets (λ w, bool_decide (is_Some (user_profiles w !! id))).

(** [UserProfile.save()]: [auto_now] refreshes [updated_at]. *)
Definition UserProfile_save (id : nat) : M unit :=
  modify (λ w, set_user_profiles
    (alter (λ p, mkProfile (created_at p) (now w) (deleted_at p)) id (user_profiles w)) w).

(** Signal [create_user_profile]. *)
Definition create_user_profile (instance : User) (created : bool) : M unit :=
  if created
  then modify (λ w, set_user_profiles
         (<[uid instance := mkProfile (now w) (now w) None]> (user_profiles w)) w)
  else ret tt.

(** Signal [save_user_profile]. *)
Definition save_user_profile (instance : User) : M unit :=
  do present <- has_profile (uid instance);
  if present then UserProfile_save (uid instance) else ret tt.

(** [user.save()]: writes the object's attributes to its row (inserting
    the row when there is none), then runs the [post_save] receivers. *)
Definition User_save (instance : User) : M unit :=
  do created <- gets (λ w, bool_decide (auth_user w !! uid instance = None));
  modify (λ w, set_auth_user (<[uid instance := instance]> (auth_user w)) w) ;;
  create_user_profile instance created ;;
  save_user_profile instance.

(** [user.save(update_fields=['last_login'])]: one column of the row. *)
Definition User_save_last_login (instance : User) : M unit :=
  modify (λ w, set_auth_user
    (alter (λ row, mkUser (uid row) (username row) (password row) (is_active row)
                     (is_superuser row) (last_login instance))
       (uid instance) (auth_user w)) w) ;;
  create_user_profile instance false ;;
  save_user_profile instance.

Module SoftDeleteModel.
(** [delete]: [deleted_at = timezone.now()], saved with
    [update_fields=['deleted_at']]. *)
Definition delete (id : nat) : M unit :=
  modify (λ w, set_user_profiles
    (alter (λ p, mkProfile (created_at p) (updated_at p) (Some (now w))) id
       (user_profiles w)) w).

Definition restore (id : nat) : M unit :=
  modify (λ w, set_user_profiles
    (alter (λ p, mkProfile (created_at p) (updated_at p) None) id
       (user_profiles w)) w).

Definition is_deleted (p : UserProfile) : bool :=
  bool_decide (deleted_at p ≠ None).
End SoftDeleteModel.

End models.

(** ** apps/users/infraestructure/cache.py *)

Module UserPermissionCache.

Definition CACHE_TTL : Z := 3600.

Definition get (user_id : nat) : M (option (gset string)) :=
  django.cache_api.get user_id.

Definition set (user_id : nat) (permissions : gset string) : M unit :=
  django.cache_api.set user_id permissions CACHE_TTL.

Definition delete (user_id : nat) : M unit :=
  django.cache_api.delete user_id.

Definition get_or_compute (user_id : nat) : M (gset string) :=
  do cached <- get user_id;
  match cached with
  | Some perms => ret perms
  | None =>
      try_except
        (do user <- django.User_objects_get user_id;
         do permissions <- django.get_all_permissions user;
         set user_id permissions ;;
         ret permissions)
        (λ e, match e with
              | DoesNotExist model =>
                  if bool_decide (model = "User") then Some (ret ∅) else None
              | _ => None
              end)
  end.

End UserPermissionCache.

(** ** apps/users/application/services.py *)

Module users_services.
Import core_permissions.

(** The keys of [validated_data] that the services read; a key that is
    absent from the dict is [None]. *)
Record ValidatedData := mkValidated {
  vd_is_active : option bool;
  vd_group_ids : option (list nat);
  vd_other : gmap string string;
}.

(** [self.user.id]: [AnonymousUser.id] is [None]; no user object at all
    has no attribute [id]. *)
Definition self_user_id (self_user : RequestUser) : M (option nat) :=
  match self_user with
  | Authenticated u => ret (Some (uid u))
  | AnonymousUser => ret None
  | NoUser => raise (AttributeError "'NoneType' object has no attribute 'id'")
  end.

(** [transaction.atomic]: an exception undoes the database writes of the
    block; the cache and the clock are outside the transaction. *)
Definition transaction_atomic {A} (block : M A) : M A :=
  λ w, match block w with
       | (w', inl e) =>
           (mkWorld (now w') (auth_user w) (auth_user_groups w)
              (auth_user_user_permissions w) (auth_group w) (auth_permission w)
              (user_profiles w) (blacklistedtoken w) (cache w') (next_jti w'),
            inl e)
       | r => r
       end.

Module UserService.

Definition max_users : nat := 10.

Definition create_user (self_user : RequestUser) (validated_data : ValidatedData)
    : M ValidatedData :=
  require_permission "auth.add_user" self_user
    (do active_users <- django.User_objects_filter_active_count;
     if bool_decide (max_users ≤ active_users)%nat
     then raise (ValidationError
                   ("Límite de usuarios alcanzado (" +:+ pretty max_users +:+ "). "
                    +:+ "Contacta soporte para ampliar tu plan."))
     else ret validated_data).

Definition update_user (self_user : RequestUser) (user_instance : User)
    (validated_data : ValidatedData) : M ValidatedData :=
  require_permission "auth.change_user" self_user
    (do self_id <- self_user_id self_user;
     let same := bool_decide (Some (uid user_instance) = self_id) in
     (if same && bool_decide (vd_is_active validated_data = Some false)
      then raise (PermissionDenied "No puedes desactivar tu propia cuenta")
      else ret tt) ;;
     (if same && bool_decide (is_Some (vd_group_ids validated_data))
      then
        do current_groups <- gets (λ w, auth_user_groups w !!! uid user_instance);
        let new_groups : gset nat := list_to_set (default [] (vd_group_ids validated_data)) in
        do admin_group <- django.Group_objects_filter_name_first "Administradores";
        match admin_group with
        | Some admin_id =>
            if bool_decide (admin_id ∈ (current_groups : gset nat))
               && negb (bool_decide (admin_id ∈ new_groups))
            then raise (PermissionDenied "No puedes remover tu propio rol de Administrador")
            else ret tt
        | None => ret tt
        end
      else ret tt) ;;
     ret validated_data).

Definition delete_user (self_user : RequestUser) (user_instance : User) : M unit :=
  require_permission "auth.delete_user" self_user
    (transaction_atomic
       (do self_id <- self_user_id self_user;
        if bool_decide (Some (uid user_instance) = self_id)
        then raise (PermissionDenied "No puedes eliminar tu propia cuenta")
        else
          let user_instance :=
            mkUser (uid user_instance) (username user_instance) (password user_instance)
              false (is_superuser user_instance) (last_login user_instance) in
          models.User_save user_instance ;;
          (do present <- models.has_profile (uid user_instance);
           if present then models.SoftDeleteModel.delete (uid user_instance) else ret tt) ;;
          invalidate_user_permissions_cache (uid user_instance))).

End UserService.

Module UserPermissionService.

Definition assign_role (self_user : RequestUser) (user_instance : User) (group_id : nat)
    : M unit :=
  require_permission "auth.change_user" self_user
    (do group <- django.Group_objects_get group_id;
     modify (λ w, set_auth_user_groups
       (<[uid user_instance := {[group]} ∪ (auth_user_groups w !!! uid user_instance)]>
          (auth_user_groups w)) w) ;;
     invalidate_user_permissions_cache (uid user_instance)).

Definition remove_role (self_user : RequestUser) (user_instance : User) (group_id : nat)
    : M unit :=
  require_permission "auth.change_user" self_user
    (do group <- django.Group_objects_get group_id;
     modify (λ w, set_auth_user_groups
       (<[uid user_instance := (auth_user_groups w !!! uid user_instance) ∖ {[group]}]>
          (auth_user_groups w)) w) ;;
     invalidate_user_permissions_cache (uid user_instance)).

End UserPermissionService.

End users_services.

(** ** Framework collaborators (rest_framework_simplejwt, django.contrib.auth) *)

(** The password hasher of the framework: [check_password] compares the
    hash of the candidate with the stored hash. *)
Class PasswordHasher := make_password : string → string.

Module auth_backend.

Definition check_password `{PasswordHasher} (user : User) (raw_password : string) : bool :=
  bool_decide (make_password raw_password = password user).

(** [ModelBackend.user_can_authenticate]: inactive users are rejected. *)
Definition user_can_authenticate (user : User) : bool := is_active user.

(** [User.objects.get_by_natural_key(username)]. *)
Definition get_by_natural_key (name : string) : M User :=
  do found <- gets (λ w,
    head (filter (λ u, username u = name) (map_to_list (auth_user w)).*2));
  match found with
  | Some u => ret u
  | None => raise (DoesNotExist "User")
  end.

(** [django.contrib.auth.authenticate] with the default [ModelBackend]
    (the settings name no other backend). *)
Definition authenticate `{PasswordHasher} (name raw_password : string) : M (option User) :=
  try_except
    (do user <- get_by_natural_key name;
     if check_password user raw_password && user_can_authenticate user
     then ret (Some user)
     else ret None)
    (λ e, match e with
          | DoesNotExist _ => Some (ret None)
          | _ => None
          end).

End auth_backend.

(** [django.utils.translation]: the message catalogues of the
    installation, by language code and message id.  The library builds
    its messages with [gettext_lazy]; they are rendered in the active
    language when the service formats [str(e)]. *)
Class Catalogs := translation : string → string → string.

Definition gettext `{Catalogs} (msgid : string) : string :=
  if settings.USE_I18N then translation settings.LANGUAGE_CODE msgid else msgid.

(** [format_lazy(template, arg)]: the first [{}] of the template is
    replaced by the argument. *)
Fixpoint format_lazy (template arg : string) : string :=
  match template with
  | String c rest =>
      match c, rest with
      | "{"%char, String "}"%char tail => arg +:+ tail
      | _, _ => String c (format_lazy rest arg)
      end
  | EmptyString => EmptyString
  end.

Module simplejwt.

(** [Token.__init__] around [TokenBackend.decode(token, verify=True)]:
    the signature and the expiry are checked while decoding; an expired
    token and a token that does not decode are refused with a message of
    their own. *)
Definition decode `{Catalogs} (token : JWT) : M Payload :=
  match token with
  | Signed true claims =>
      do current_time <- gets now;
      if bool_decide (exp claims ≤ current_time)
      then raise (TokenError (gettext "Token is expired"))
      else ret claims
  | _ => raise (TokenError (gettext "Token is invalid"))
  end.

Definition check_blacklist `{Catalogs} (payload : Payload) : M unit :=
  do listed <- gets (λ w, bool_decide (jti payload ∈ blacklistedtoken w));
  if listed then raise (TokenError (gettext "Token is blacklisted")) else ret tt.

Definition check_exp `{Catalogs} (payload : Payload) : M unit :=
  do current_time <- gets now;
  if bool_decide (exp payload ≤ current_time)
  then raise (TokenError (format_lazy (gettext "Token '{}' claim has expired") "exp"))
  else ret tt.

Definition verify_token_type `{Catalogs} (expected : TokenType) (payload : Payload)
    : M unit :=
  match expected, token_type payload with
  | access_type, access_type | refresh_type, refresh_type => ret tt
  | _, _ => raise (TokenError (gettext "Token has wrong type"))
  end.

(** [Token.verify]. *)
Definition verify `{Catalogs} (expected : TokenType) (payload : Payload) : M unit :=
  check_exp payload ;; verify_token_type expected payload.

(** [RefreshToken(token)]: decode, then [BlacklistMixin.verify]. *)
Definition RefreshToken `{Catalogs} (token : JWT) : M Payload :=
  do payload <- decode token;
  (if settings.token_blacklist_installed then check_blacklist payload else ret tt) ;;
  verify refresh_type payload ;;
  ret payload.

(** [AccessToken(token)]: no blacklist for access tokens. *)
Definition AccessToken `{Catalogs} (token : JWT) : M Payload :=
  do payload <- decode token;
  verify access_type payload ;;
  ret payload.

(** [uuid4().hex] for the [jti] claim. *)
Definition set_jti : M nat :=
  do n <- gets next_jti;
  modify (set_next_jti (S n)) ;;
  ret n.

(** [RefreshToken.for_user(user)]. *)
Definition for_user (user : User) : M Payload :=
  do current_time <- gets now;
  do id <- set_jti;
  ret (mkPayload refresh_type (uid user) (current_time + settings.REFRESH_TOKEN_LIFETIME) id).

(** The property [refresh.access_token]. *)
Definition access_token (refresh : Payload) : M Payload :=
  do current_time <- gets now;
  do id <- set_jti;
  ret (mkPayload access_type (user_id refresh) (current_time + settings.ACCESS_TOKEN_LIFETIME) id).

(** [token.blacklist()]: the method exists only with the blacklist app. *)
Definition blacklist (payload : Payload) : M unit :=
  if settings.token_blacklist_installed
  then modify (λ w, set_blacklistedtoken ({[jti payload]} ∪ blacklistedtoken w) w)
  else raise (AttributeError "'RefreshToken' object has no attribute 'blacklist'").

(** [str(token)]: the claims signed with the server's key. *)
Definition str (payload : Payload) : JWT := Signed true payload.

End simplejwt.

(** ** apps/auth/application/services.py *)

Module auth_services.

Record LoginResult := mkLogin {
  login_access : JWT;
  login_refresh : JWT;
  login_user : User;
}.

Record VerifyResult := mkVerify {
  verify_valid : bool;
  verify_user_id : nat;
  verify_exp : Z;
}.

Module AuthService.

Definition login `{PasswordHasher} (name raw_password : string) : M LoginResult :=
  do user <- auth_backend.authenticate name raw_password;
  match user with
  | None => raise (AuthenticationFailed "Credenciales inválidas")
  | Some user =>
      if negb (is_active user)
      then raise (AuthenticationFailed "Usuario inactivo")
      else
        do refresh <- simplejwt.for_user user;
        do current_time <- gets now;
        let user := mkUser (uid user) (username user) (password user) (is_active user)
                      (is_superuser user) (Some current_time) in
        models.User_save_last_login user ;;
        do access <- simplejwt.access_token refresh;
        ret (mkLogin (simplejwt.str access) (simplejwt.str refresh) user)
  end.

(** The returned dict: its only key is ['access']. *)
Definition refresh_token `{Catalogs} (refresh_token : JWT) : M (gmap string JWT) :=
  try_except
    (do refresh <- simplejwt.RefreshToken refresh_token;
     do access <- simplejwt.access_token refresh;
     ret {[ "access" := simplejwt.str access ]})
    (λ e, match e with
          | TokenError message =>
              Some (raise (ValidationError ("Token inválido: " +:+ message)))
          | _ => None
          end).

Definition logout `{Catalogs} (refresh_token : JWT) : M unit :=
  try_except
    (do token <- simplejwt.RefreshToken refresh_token;
     simplejwt.blacklist token)
    (λ e, match e with
          | TokenError message =>
              Some (raise (ValidationError ("Token inválido: " +:+ message)))
          | AttributeError _ =>
              Some (raise (ValidationError
                ("Blacklist no configurado. Agrega "
                 +:+ "rest_framework_simplejwt.token_blacklist a INSTALLED_APPS")))
          | _ => None
          end).

Definition verify_token `{Catalogs} (token : JWT) : M VerifyResult :=
  try_except
    (do access_token <- simplejwt.AccessToken token;
     ret (mkVerify true (user_id access_token) (exp access_token)))
    (λ e, match e with
          | TokenError message =>
              Some (raise (ValidationError ("Token inválido: " +:+ message)))
          | _ => None
          end).

End AuthService.

End auth_services.

(** ** A small installation used for worked examples *)

Module demo.

Definition all_perms : gset string :=
  {[ "auth.view_user"; "auth.add_user"; "auth.change_user"; "auth.delete_user" ]}.

Definition hasher : PasswordHasher := λ raw, "pbkdf2_sha256$" +:+ raw.

(** A Spanish catalogue: it renders the messages for a revoked token and
    for a token of the wrong type and has no entry for the others. *)
Definition catalogs : Catalogs := λ language msgid,
  if bool_decide (language = "es-do") then
    if bool_decide (msgid = "Token is blacklisted") then "El token está en lista negra"
    else if bool_decide (msgid = "Token has wrong type")
         then "El token tiene un tipo incorrecto"
         else msgid
  else msgid.

Definition admin : User := mkUser 1 "admin" "pbkdf2_sha256$admin123" true false None.
Definition alice : User := mkUser 2 "alice" "pbkdf2_sha256$alice123" true false None.
Definition bob : User := mkUser 3 "bob" "pbkdf2_sha256$bob12345" false false None.
Definition root : User := mkUser 4 "root" "pbkdf2_sha256$root1234" true true None.

(** Roles as seeded by [seed_roles]; [admin] is an Administrador, [alice]
    a plain Usuario, [bob] a deactivated account. *)
Definition world : World :=
  mkWorld 1000
    {[ 1%nat := admin; 2%nat := alice; 3%nat := bob; 4%nat := root ]}
    {[ 1%nat := {[ 1%nat ]}; 2%nat := {[ 3%nat ]} ]}
    ∅
    {[ 1%nat := mkGroup "Administradores" all_perms;
       2%nat := mkGroup "Operadores"
                  {[ "auth.view_user"; "auth.add_user"; "auth.change_user" ]};
       3%nat := mkGroup "Usuarios" {[ "auth.view_user" ]} ]}
    all_perms
    {[ 1%nat := mkProfile 0 0 None; 2%nat := mkProfile 0 0 None;
       3%nat := mkProfile 0 0 None; 4%nat := mkProfile 0 0 None ]}
    ∅ ∅ 0.

(** The [UserViewSet] as the gate sees it while serving [destroy]. *)
Definition destroy_view : core_permissions.View :=
  core_permissions.mkView
    (Some {[ "list" := core_permissions.PermList ["auth.view_user"];
             "retrieve" := core_permissions.PermList ["auth.view_user"];
             "create" := core_permissions.PermList ["auth.add_user"];
             "update" := core_permissions.PermList ["auth.change_user"];
             "partial_update" := core_permissions.PermList ["auth.change_user"];
             "destroy" := core_permissions.PermList ["auth.delete_user"];
             "me" := core_permissions.PermList [];
             "change_password" := core_permissions.PermList [] ]})
    (Some "destroy").

(** The same installation once ten accounts are active. *)
Definition crowded : World :=
  set_auth_user
    (<[1%nat := admin]>
       (list_to_map
          ((λ i, (i, mkUser i ("user" +:+ pretty i) "" true false None)) <$> seq 1 10)))
    world.

(** A refresh token issued to [alice] at the instant of [world]. *)
Definition alice_refresh : JWT :=
  Signed true (mkPayload refresh_type 2 1300 77).

End demo.

(** ** Specification-side vocabulary *)

(** The set the resolver returns for a principal in a given world. *)
Definition resolve (w : World) (user : RequestUser) : gset string :=
  match outcome (core_permissions.get_user_permissions_cached user w) with
  | inr perms => perms
  | inl _ => ∅
  end.

(** The permissions a view requires for its current action, if it
    declares an entry for it. *)
Definition required_for (view : core_permissions.View) : option (list string) :=
  a ← core_permissions.action view;
  declared ← default ∅ (core_permissions.required_permissions view) !! a;
  Some (match declared with
        | core_permissions.PermStr s => [s]
        | core_permissions.PermList l => l
        end).

(** The rule of the authorization gate as the specification words it. *)
Definition authorize (w : World) (principal : RequestUser)
    (view : core_permissions.View) : bool :=
  match principal with
  | Authenticated u =>
      if is_superuser u then true
      else match required_for view with
           | None => true
           | Some [] => true
           | Some required =>
               bool_decide (Forall (λ perm, perm ∈ resolve w principal) required)
           end
  | _ => false
  end.

(** Two worlds that differ at most in the cache store. *)
Definition same_records (w w' : World) : Prop :=
  now w' = now w ∧ auth_user w' = auth_user w ∧
  auth_user_groups w' = auth_user_groups w ∧
  auth_user_user_permissions w' = auth_user_user_permissions w ∧
  auth_group w' = auth_group w ∧ auth_permission w' = auth_permission w ∧
  user_profiles w' = user_profiles w ∧ blacklistedtoken w' = blacklistedtoken w ∧
  next_jti w' = next_jti w.

(** The permission check of the [require_permission] decorator passes. *)
Definition gate_passes (w : World) (user : RequestUser) (perm : string) : Prop :=
  outcome (core_permissions.has_permission user perm w) = inr true.

(** Every cache entry belongs to a stored principal.  The cache is only
    written for a user object, and rows of [auth_user] are never removed;
    the lemmas on [cache_sound] below show that the operations keep it
    when the acting user object is a stored one. *)
Definition cache_sound (w : World) : Prop :=
  ∀ id, is_Some (cache w !! id) → is_Some (auth_user w !! id).

(** The user object of the request, if any, has its row. *)
Definition requester_stored (w : World) (user : RequestUser) : Prop :=
  match user with
  | Authenticated u => is_Some (auth_user w !! uid u)
  | _ => True
  end.

(** The role memberships of [P] after a grant or a revocation. *)
Definition memberships_after (grant : bool) (w : World) (P : User) (group_id : nat)
    : gset nat :=
  if grant then {[group_id]} ∪ (auth_user_groups w !!! uid P)
  else (auth_user_groups w !!! uid P) ∖ {[group_id]}.

(** A refresh token the server would honour: its own signature, the
    refresh type, not yet expired, not in the revocation set. *)
Definition live_refresh_token (w : World) (claims : Payload) : Prop :=
  token_type claims = refresh_type ∧ now w < exp claims ∧
  jti claims ∉ blacklistedtoken w.

(** The failures of [refresh_token]: what the service raises for a
    library message, and the instances for a token that does not decode,
    for an expired token and for a revoked token.  The text after the
    prefix is the library's message in the active language. *)
Definition token_failure `{Catalogs} (msgid : string) : Exc :=
  ValidationError ("Token inválido: " +:+ gettext msgid).
Definition InvalidToken_failure `{Catalogs} : Exc := token_failure "Token is invalid".
Definition ExpiredToken_failure `{Catalogs} : Exc := token_failure "Token is expired".
Definition Revoked_failure `{Catalogs} : Exc := token_failure "Token is blacklisted".

(** The catalogue renders the message for a revoked token differently
    from those for an undecodable and for an expired token. *)
Definition revoked_message_distinct `{Catalogs} : Prop :=
  gettext "Token is blacklisted" ≠ gettext "Token is invalid" ∧
  gettext "Token is blacklisted" ≠ gettext "Token is expired".

(** No stored principal has this username. *)
Definition unknown_username (w : World) (name : string) : Prop :=
  ∀ id u, auth_user w !! id = Some u → username u ≠ name.

(** [u] is the stored principal with this username ([username] is a
    unique column). *)
Definition principal_named (w : World) (name : string) (u : User) : Prop :=
  auth_user w !! uid u = Some u ∧ username u = name ∧
  ∀ id v, auth_user w !! id = Some v → username v = name → v = u.

(** The two failures of [login]. *)
Definition InvalidCredentials : Exc := AuthenticationFailed "Credenciales inválidas".
Definition InactiveAccount : Exc := AuthenticationFailed "Usuario inactivo".

(** The number of active principals, as [create_user] counts them. *)
Definition active_principals (w : World) : nat :=
  size (filter (λ kv, is_active kv.2 = true) (auth_user w)).

Definition QuotaExceeded : Exc :=
  ValidationError
    "Límite de usuarios alcanzado (10). Contacta soporte para ampliar tu plan.".

Definition missing_permission (perm : string) : Exc :=
  PermissionDenied ("No tienes permiso: " +:+ perm).
Definition SelfDeactivation : Exc :=
  PermissionDenied "No puedes desactivar tu propia cuenta".
Definition SelfDemotion : Exc :=
  PermissionDenied "No puedes remover tu propio rol de Administrador".
Definition SelfDeletion : Exc :=
  PermissionDenied "No puedes eliminar tu propia cuenta".

(** The changes carry a role list without the Administrator role that the
    target holds. *)
Definition removes_admin_role (w : World) (target : User)
    (changes : users_services.ValidatedData) : Prop :=
  ∃ new_ids admin_id,
    users_services.vd_group_ids changes = Some new_ids ∧
    outcome (django.Group_objects_filter_name_first "Administradores" w)
    = inr (Some admin_id) ∧
    admin_id ∈ auth_user_groups w !!! uid target ∧
    admin_id ∉ new_ids.

(** ** The remaining operations of the same files *)

(** A Python [for] loop over a list; an exception in the body ends it. *)
Fixpoint for_each {A} (items : list A) (body : A → M unit) : M unit :=
  match items with
  | [] => ret tt
  | item :: rest => body item ;; for_each rest body
  end.

(** apps/users/infraestructure/cache.py: [invalidate_group], [warm_up]
    and the two module-level helpers. *)
Module cache_ops.

(** [group.user_set.values_list('id', flat=True)]: the primary keys of
    the users that are members of the group. *)
Definition group_user_ids (group_id : nat) : M (list nat) :=
  gets (λ w,
    (map_to_list
       (filter (λ kv, group_id ∈ auth_user_groups w !!! kv.1) (auth_user w))).*1).

Definition invalidate_group (group_id : nat) : M unit :=
  try_except
    (do group <- django.Group_objects_get group_id;
     do user_ids <- group_user_ids group;
     for_each user_ids UserPermissionCache.delete)
    (λ e, match e with
          | DoesNotExist model =>
              if bool_decide (model = "Group") then Some (ret tt) else None
          | _ => None
          end).

(** [user_ids = None] selects the active users, a list selects the users
    whose primary key is in it; the loop body uses the primary key. *)
Definition warm_up (user_ids : option (list nat)) : M unit :=
  do users <- gets (λ w,
    match user_ids with
    | None => filter (λ kv, is_active kv.2 = true) (map_to_list (auth_user w))
    | Some ids => filter (λ kv, kv.1 ∈ ids) (map_to_list (auth_user w))
    end);
  for_each users (λ kv, UserPermissionCache.get_or_compute kv.1 ;; ret tt).

Definition get_user_permissions_cached (user : RequestUser) : M (gset string) :=
  match user with
  | Authenticated u => UserPermissionCache.get_or_compute (uid u)
  | _ => ret ∅
  end.

Definition invalidate_user_permissions_cache (user_id : nat) : M unit :=
  UserPermissionCache.delete user_id.

End cache_ops.

(** apps/users/application/services.py:
    [UserPermissionService.get_user_effective_permissions]. *)
Module permission_service_ops.

Record EffectivePermissions := mkEffective {
  ep_permissions : list string;
  ep_roles : list string;
  ep_is_superuser : bool;
}.

(** [user_instance.groups.values_list('name', flat=True)]. *)
Definition group_names (id : nat) : M (list string) :=
  gets (λ w,
    omap (λ gid, group_name <$> auth_group w !! gid)
      (elements (auth_user_groups w !!! id))).

Definition get_user_effective_permissions (user_instance : User)
    : M EffectivePermissions :=
  do permissions <- core_permissions.get_user_permissions_cached
                      (Authenticated user_instance);
  do roles <- group_names (uid user_instance);
  ret (mkEffective (elements permissions) roles (is_superuser user_instance)).

End permission_service_ops.

(** apps/auth/application/services.py: [AuthService.get_user_from_token]
    and [PasswordService.change_password]. *)
Module auth_service_ops.

(** [User.objects.get(id=user_id, is_active=True)]. *)
Definition User_objects_get_active (id : nat) : M User :=
  do row <- gets (λ w, auth_user w !! id);
  match row with
  | Some u => if is_active u then ret u else raise (DoesNotExist "User")
  | None => raise (DoesNotExist "User")
  end.

Definition get_user_from_token `{Catalogs} (token : JWT) : M User :=
  do token_data <- auth_services.AuthService.verify_token token;
  let user_id := auth_services.verify_user_id token_data in
  try_except
    (User_objects_get_active user_id)
    (λ e, match e with
          | DoesNotExist model =>
              if bool_decide (model = "User")
              then Some (raise (ValidationError "Usuario no encontrado o inactivo"))
              else None
          | _ => None
          end).

Module PasswordService.

Definition change_password `{PasswordHasher} (user : User)
    (old_password new_password : string) : M unit :=
  if negb (auth_backend.check_password user old_password)
  then raise (ValidationError "Password actual incorrecto")
  else
    (* [user.set_password(new_password)] *)
    let user := mkUser (uid user) (username user) (make_password new_password)
                  (is_active user) (is_superuser user) (last_login user) in
    models.User_save user.

End PasswordService.

End auth_service_ops.

(** User objects with the permission memo of [ModelBackend].  The
    functions above take a user object by the attributes loaded from its
    row, which is what it is when the authentication of a request or
    [User.objects.get] has just built it.  An object that is kept and asked
    again carries the set it computed the first time. *)
Module user_object.

(** A Python [User] object: the attributes loaded from the row and the
    attribute [_perm_cache], [None] while the object has no such
    attribute. *)
Record UserObject := mkObject {
  attributes : User;
  _perm_cache : option (gset string);
}.

(** The object as it is when it has just been loaded. *)
Definition loaded (row : User) : UserObject := mkObject row None.

(** [user.get_all_permissions()] through [ModelBackend]: an inactive
    object gets nothing; otherwise the memo is filled from the tables on
    first use and returned.  The result comes with the object as it is
    after the call. *)
Definition get_all_permissions (user_obj : UserObject) : M (UserObject * gset string) :=
  if negb (is_active (attributes user_obj)) then ret (user_obj, ∅)
  else
    match _perm_cache user_obj with
    | Some perms => ret (user_obj, perms)
    | None =>
        do perms <- gets (λ w,
          if is_superuser (attributes user_obj) then auth_permission w
          else django.user_permissions_of w (uid (attributes user_obj))
               ∪ django.group_permissions_of w (uid (attributes user_obj)));
        ret (mkObject (attributes user_obj) (Some perms), perms)
    end.

(** apps/core/permissions.py: [get_user_permissions_cached] for an
    authenticated user object. *)
Definition get_user_permissions_cached (user : UserObject)
    : M (UserObject * gset string) :=
  let cache_key := uid (attributes user) in
  do cached_perms <- django.cache_api.get cache_key;
  match cached_perms with
  | Some perms => ret (user, perms)
  | None =>
      do computed <- get_all_permissions user;
      let '(user, perms) := computed in
      django.cache_api.set cache_key perms 3600 ;;
      ret (user, perms)
  end.

End user_object.

(** apps/users/api/views.py: the permissions [UserViewSet] declares for
    its actions. *)
Module user_views.

Definition required_permissions : gmap string core_permissions.ActionPerms :=
  {[ "list" := core_permissions.PermList ["auth.view_user"];
     "retrieve" := core_permissions.PermList ["auth.view_user"];
     "create" := core_permissions.PermList ["auth.add_user"];
     "update" := core_permissions.PermList ["auth.change_user"];
     "partial_update" := core_permissions.PermList ["auth.change_user"];
     "destroy" := core_permissions.PermList ["auth.delete_user"];
     "me" := core_permissions.PermList [];
     "change_password" := core_permissions.PermList [] ]}.

(** The view object while it serves [action]. *)
Definition UserViewSet (action : string) : core_permissions.View :=
  core_permissions.mkView (Some required_permissions) (Some action).

End user_views.

(** ** Vocabulary for the further properties *)

(** The value a cache store [c] serves for key [id] at instant [t]. *)
Definition live_entry (c : gmap nat (gset string * Z)) (t : Z) (id : nat)
    : option (gset string) :=
  match c !! id with
  | Some (v, expires) => if bool_decide (t < expires) then Some v else None
  | None => None
  end.

(** Every row is stored under its own primary key. *)
Definition rows_keyed (w : World) : Prop :=
  ∀ k u, auth_user w !! k = Some u → uid u = k.

(** Every stored user has its profile row. *)
Definition profiles_complete (w : World) : Prop :=
  ∀ id, is_Some (auth_user w !! id) → is_Some (user_profiles w !! id).

(** The failure of [get_user_from_token] for a missing or inactive user. *)
Definition UserNotFoundOrInactive : Exc :=
  ValidationError "Usuario no encontrado o inactivo".
Definition WrongOldPassword : Exc := ValidationError "Password actual incorrecto".
Definition WrongTokenType_failure `{Catalogs} : Exc :=
  token_failure "Token has wrong type".

(** A row with another password hash, activity flag or login instant. *)
Definition with_password (hash : string) (u : User) : User :=
  mkUser (uid u) (username u) hash (is_active u) (is_superuser u) (last_login u).
Definition with_is_active (flag : bool) (u : User) : User :=
  mkUser (uid u) (username u) (password u) flag (is_superuser u) (last_login u).
Definition with_last_login (t : Z) (u : User) : User :=
  mkUser (uid u) (username u) (password u) (is_active u) (is_superuser u) (Some t).

(** The users [warm_up] selects: the active ones, or those whose primary
    key is listed. *)
Definition warm_selected (user_ids : option (list nat)) (k : nat) (u : User) : Prop :=
  match user_ids with
  | None => is_active u = true
  | Some ids => k ∈ ids
  end.

#[global] Instance warm_selected_dec user_ids k u : Decision (warm_selected user_ids k u).
Proof. destruct user_ids; simpl; apply _. Defined.

(** An installation for worked examples of the further properties. *)
Module demo2.

(** [alice]'s entry was cached at instant 400 with the grants she had
    then; it is still live at the instant 1000 of [demo.world]. *)
Definition stale_world : World :=
  set_cache {[ 2%nat := ({[ "auth.view_user"; "auth.delete_user" ]}, 4000) ]} demo.world.

(** The object of [alice] after it resolved her permissions when she
    still held the delete permission. *)
Definition alice_asked : user_object.UserObject :=
  user_object.mkObject demo.alice (Some {[ "auth.view_user"; "auth.delete_user" ]}).

(** [demo.world] where [alice] also holds the delete permission as a
    direct grant. *)
Definition direct_world : World :=
  mkWorld (now demo.world) (auth_user demo.world) (auth_user_groups demo.world)
    {[ 2%nat := {[ "auth.delete_user" ]} ]}
    (auth_group demo.world) (auth_permission demo.world) (user_profiles demo.world)
    (blacklistedtoken demo.world) (cache demo.world) (next_jti demo.world).

(** An access token of [alice]. *)
Definition alice_access : JWT := Signed true (mkPayload access_type 2 1120 78).

(** The user with id 9 held the view permission when its entry was cached
    at instant 400; its row has been removed since (the Django admin of
    config/urls.py deletes rows and does not touch the cache). *)
Definition orphan_world : World :=
  set_cache {[ 9%nat := ({[ "auth.view_user" ]}, 4000) ]} demo.world.

End demo2.

(** ** Proof support *)

Ltac run :=
  unfold outcome, world_of, bind, ret, raise, gets, modify, try_except in *;
  simpl in *.

Lemma same_records_set_cache c w : same_records w (set_cache c w).
Proof. by repeat split. Qed.

Lemma forallb_bool_decide_Forall (S : gset string) (l : list string) :
  forallb (λ perm, bool_decide (perm ∈ S)) l
  = bool_decide (Forall (λ perm, perm ∈ S) l).
Proof.
  induction l as [|p l IH]; simpl.
  - done.
  - rewrite IH. destruct (decide (p ∈ S)) as [Hp|Hp].
    + rewrite (bool_decide_eq_true_2 _ Hp). simpl.
      apply bool_decide_ext. split; [by constructor | by inversion 1].
    + rewrite (bool_decide_eq_false_2 _ Hp). simpl.
      symmetry. apply bool_decide_eq_false_2. by inversion 1.
Qed.

Lemma set_cache_id w : set_cache (cache w) w = w.
Proof. by destruct w. Qed.

(** The resolver never raises and touches nothing but the cache. *)
Lemma get_user_permissions_cached_total user w :
  ∃ c, core_permissions.get_user_permissions_cached user w
       = (set_cache c w, inr (resolve w user)).
Proof.
  unfold resolve.
  destruct user as [| |u]; simpl;
    try (exists (cache w); by rewrite set_cache_id).
  unfold django.cache_api.get. run.
  destruct (cache w !! uid u) as [[v e]|]; [case_bool_decide|]; simpl;
    first [by eexists | exists (cache w); by rewrite set_cache_id].
Qed.

Lemma has_permission_total user perm w :
  ∃ c, core_permissions.has_permission user perm w
       = (set_cache c w, inr (bool_decide (perm ∈ resolve w user))).
Proof.
  destruct (get_user_permissions_cached_total user w) as (c & Hrun).
  exists c. unfold core_permissions.has_permission, bind. by rewrite Hrun.
Qed.

(** The decorator: run the check, then either refuse or run the body in
    the world the check left, which is the old one up to its cache. *)
Lemma require_permission_run {A} perm user (func : M A) w :
  ∃ c, core_permissions.require_permission perm user func w =
      if bool_decide (perm ∈ resolve w user) then func (set_cache c w)
      else (set_cache c w, inl (PermissionDenied ("No tienes permiso: " +:+ perm))).
Proof.
  destruct (has_permission_total user perm w) as (c & Hrun).
  exists c.
  unfold core_permissions.require_permission, bind at 1. rewrite Hrun.
  by destruct (bool_decide _).
Qed.

(** Replace a decorated call in [H] by its two possible continuations. *)
Ltac open_gate H c :=
  let Heq := fresh "Heq" in
  match type of H with
  | context [core_permissions.require_permission ?p ?u ?f ?w] =>
      destruct (require_permission_run p u f w) as (c & Heq);
      rewrite Heq in H; clear Heq
  end.

(** The same for a decorated call in the goal. *)
Ltac open_gate_goal c :=
  match goal with
  | |- context [core_permissions.require_permission ?p ?u ?f ?w] =>
      destruct (require_permission_run p u f w) as (c & ->)
  end.

Lemma gate_passes_iff w user perm :
  gate_passes w user perm ↔ perm ∈ resolve w user.
Proof.
  unfold gate_passes.
  destruct (has_permission_total user perm w) as (c & ->). simpl.
  split.
  - intros [= H]. by apply bool_decide_eq_true in H.
  - intros H. by rewrite bool_decide_eq_true_2.
Qed.

(** The two resolvers, run: a live entry is served, otherwise the set is
    computed, stored for 3600 seconds and returned. *)
Lemma core_resolver_run (u : User) w :
  core_permissions.get_user_permissions_cached (Authenticated u) w =
    match live_entry (cache w) (now w) (uid u) with
    | Some perms => (w, inr perms)
    | None =>
        (set_cache (<[uid u := (django.all_permissions_of w u, now w + 3600)]> (cache w)) w,
         inr (django.all_permissions_of w u))
    end.
Proof.
  unfold core_permissions.get_user_permissions_cached, django.cache_api.get,
    django.cache_api.set, django.get_all_permissions, live_entry.
  run. destruct (cache w !! uid u) as [[v e]|]; [case_bool_decide|]; reflexivity.
Qed.

Lemma get_or_compute_run (id : nat) w :
  UserPermissionCache.get_or_compute id w =
    match live_entry (cache w) (now w) id with
    | Some perms => (w, inr perms)
    | None =>
        match auth_user w !! id with
        | Some u =>
            (set_cache (<[id := (django.all_permissions_of w u, now w + 3600)]> (cache w)) w,
             inr (django.all_permissions_of w u))
        | None => (w, inr ∅)
        end
    end.
Proof.
  unfold UserPermissionCache.get_or_compute, UserPermissionCache.get,
    UserPermissionCache.set, UserPermissionCache.CACHE_TTL, django.cache_api.get,
    django.cache_api.set, django.User_objects_get, django.get_all_permissions,
    live_entry.
  run. destruct (cache w !! id) as [[v e]|]; [case_bool_decide|]; simpl; try reflexivity.
  all: destruct (auth_user w !! id); reflexivity.
Qed.

(** ** The authorization gate *)

(** C1. For every principal and every view action, the gate of
    [HasPermission] answers as the rule [authorize] says: an
    unauthenticated principal is denied; a superuser is allowed; otherwise
    a view without an entry for the action, or with an empty one, allows;
    otherwise the answer is true exactly when every required permission is
    in the principal's resolved permission set.  Action names are handler
    method names, hence never the empty string. *)
Theorem has_permission_authorize (w : World) (principal : RequestUser)
    (view : core_permissions.View) :
  core_permissions.action view ≠ Some "" →
  outcome (core_permissions.HasPermission.has_permission principal view w)
  = inr (authorize w principal view).
Proof.
  intros Hname.
  unfold core_permissions.HasPermission.has_permission, authorize, required_for.
  destruct principal as [| |u]; try reflexivity.
  destruct (is_superuser u); [reflexivity|].
  destruct (core_permissions.action view) as [a|] eqn:Ha; simpl; [|reflexivity].
  assert (a ≠ "") as Hne by congruence.
  rewrite (bool_decide_eq_false_2 _ Hne). simpl.
  destruct (default ∅ (core_permissions.required_permissions view) !! a)
    as [declared|] eqn:Hd; simpl; [|reflexivity].
  destruct (get_user_permissions_cached_total (Authenticated u) w) as (c & Hrun).
  simpl in Hrun. unfold outcome. unfold bind at 1. rewrite Hrun. simpl.
  rewrite forallb_bool_decide_Forall.
  destruct declared as [s|[|p l]]; reflexivity.
Qed.

Lemma has_permission_authorize_witness :
  core_permissions.action demo.destroy_view ≠ Some "" ∧
  outcome (core_permissions.HasPermission.has_permission
             (Authenticated demo.alice) demo.destroy_view demo.world) = inr false ∧
  outcome (core_permissions.HasPermission.has_permission
             (Authenticated demo.admin) demo.destroy_view demo.world) = inr true.
Proof.
  assert (core_permissions.action demo.destroy_view ≠ Some "") as Hname by discriminate.
  split; [exact Hname|]. split.
  - rewrite (has_permission_authorize demo.world (Authenticated demo.alice)
               demo.destroy_view Hname).
    vm_compute. reflexivity.
  - rewrite (has_permission_authorize demo.world (Authenticated demo.admin)
               demo.destroy_view Hname).
    vm_compute. reflexivity.
Defined.

(** ** The permission cache *)

Lemma get_or_compute_cache_sound w user_id :
  cache_sound w → cache_sound (world_of (UserPermissionCache.get_or_compute user_id w)).
Proof.
  intros Hsound.
  unfold UserPermissionCache.get_or_compute, UserPermissionCache.get,
    UserPermissionCache.set, django.cache_api.get, django.cache_api.set,
    django.User_objects_get, django.get_all_permissions.
  run.
  destruct (cache w !! user_id) as [[v e]|] eqn:Hc; [case_bool_decide|]; simpl; try done.
  all: destruct (auth_user w !! user_id) as [u|] eqn:Hu; simpl; try done.
  all: intros id; simpl; destruct (decide (user_id = id)) as [->|Hne];
    [by rewrite Hu | rewrite lookup_insert_ne by done; apply Hsound].
Qed.

(** C10 (as the code has it). For a user id without a principal in the
    identity store, [get_or_compute] raises nothing and leaves the world,
    in particular the cache, as it was.  What it returns is the live cache
    entry of that id if there is one, and the empty set otherwise, now and
    at every other instant; so it is the empty set at every later instant
    when there is no live entry now, at every instant when cache entries
    belong to stored principals only, and from the expiry of the entry on
    when an entry is left for the id. *)
Theorem get_or_compute_unknown_user (w : World) (user_id : nat) :
  auth_user w !! user_id = None →
  UserPermissionCache.get_or_compute user_id w
  = (w, inr (default ∅ (live_entry (cache w) (now w) user_id))) ∧
  (∀ dt, UserPermissionCache.get_or_compute user_id (tick dt w)
         = (tick dt w, inr (default ∅ (live_entry (cache w) (now w + dt) user_id)))) ∧
  (live_entry (cache w) (now w) user_id = None →
   ∀ dt, 0 ≤ dt →
     UserPermissionCache.get_or_compute user_id (tick dt w) = (tick dt w, inr ∅)) ∧
  (cache_sound w →
   ∀ dt, UserPermissionCache.get_or_compute user_id (tick dt w) = (tick dt w, inr ∅)) ∧
  (∀ perms expires, cache w !! user_id = Some (perms, expires) →
   ∀ dt, UserPermissionCache.get_or_compute user_id (tick dt w)
         = (tick dt w, inr (if bool_decide (now w + dt < expires) then perms else ∅))).
Proof.
  intros Hnone.
  assert (∀ dt, UserPermissionCache.get_or_compute user_id (tick dt w)
                = (tick dt w, inr (default ∅ (live_entry (cache w) (now w + dt) user_id))))
    as Hlater.
  { intros dt. rewrite get_or_compute_run. simpl. rewrite Hnone.
    by destruct (live_entry _ _ _). }
  split; [|split; [exact Hlater|split; [|split]]].
  - rewrite get_or_compute_run, Hnone. by destruct (live_entry _ _ _).
  - intros Hmiss dt Hdt. rewrite Hlater. unfold live_entry in *.
    destruct (cache w !! user_id) as [[v e]|]; [|done].
    case_bool_decide; [done|]. by rewrite bool_decide_eq_false_2 by lia.
  - intros Hsound dt. rewrite Hlater. unfold live_entry.
    destruct (cache w !! user_id) as [[v e]|] eqn:Hc; [|done].
    destruct (Hsound user_id) as [u Hu]; [by rewrite Hc | congruence].
  - intros perms expires Hentry dt. rewrite Hlater. unfold live_entry.
    rewrite Hentry. by case_bool_decide.
Qed.

(** An id without a row and without a cache entry, and an id without a
    row whose entry outlived it. *)
Lemma get_or_compute_unknown_user_witness :
  UserPermissionCache.get_or_compute 9 demo.world = (demo.world, inr ∅) ∧
  outcome (UserPermissionCache.get_or_compute 9 (tick 2999 demo2.orphan_world))
  = inr ({[ "auth.view_user" ]} : gset string) ∧
  outcome (UserPermissionCache.get_or_compute 9 (tick 3000 demo2.orphan_world))
  = inr (∅ : gset string).
Proof.
  split; [|split].
  - destruct (get_or_compute_unknown_user demo.world 9) as (Hnow & _);
      [reflexivity|].
    etransitivity; [exact Hnow|]. reflexivity.
  - destruct (get_or_compute_unknown_user demo2.orphan_world 9) as (_ & Hlater & _);
      [reflexivity|].
    rewrite (Hlater 2999). vm_compute. reflexivity.
  - destruct (get_or_compute_unknown_user demo2.orphan_world 9) as (_ & Hlater & _);
      [reflexivity|].
    rewrite (Hlater 3000). vm_compute. reflexivity.
Defined.

(** C10, counterexample to the wording "returns the empty permission
    set": the id 9 has no row, its cache entry is still live, and
    [get_or_compute] serves the cached set. *)
Lemma get_or_compute_orphan_entry_counterexample :
  auth_user demo2.orphan_world !! 9%nat = None ∧
  UserPermissionCache.get_or_compute 9 demo2.orphan_world
  = (demo2.orphan_world, inr {[ "auth.view_user" ]}) ∧
  outcome (UserPermissionCache.get_or_compute 9 demo2.orphan_world)
  ≠ inr (∅ : gset string).
Proof.
  split; [reflexivity|]. split; [vm_compute; reflexivity|].
  rewrite get_or_compute_run. vm_compute. discriminate.
Qed.

Lemma group_get_run group_id w :
  django.Group_objects_get group_id w =
    (w, if bool_decide (is_Some (auth_group w !! group_id))
        then inr group_id else inl (DoesNotExist "Group")).
Proof.
  unfold django.Group_objects_get. run.
  by destruct (auth_group w !! group_id).
Qed.

(** [cache_sound] is kept by the resolver, by the decorator and by the
    operations that write the cache or the user table. *)
Lemma cache_sound_delete w id :
  cache_sound w → cache_sound (set_cache (delete id (cache w)) w).
Proof.
  intros Hsound k [v Hk]. simpl in *.
  apply lookup_delete_Some in Hk as [_ Hk]. apply Hsound. by eexists.
Qed.

Lemma cache_sound_tick w dt : cache_sound w → cache_sound (tick dt w).
Proof. intros Hsound. exact Hsound. Qed.

Lemma get_user_permissions_cached_cache_sound user w :
  cache_sound w → requester_stored w user →
  cache_sound (world_of (core_permissions.get_user_permissions_cached user w)).
Proof.
  intros Hsound Hstored. destruct user as [| |u]; try exact Hsound.
  unfold core_permissions.get_user_permissions_cached, django.cache_api.get,
    django.cache_api.set, django.get_all_permissions.
  run.
  destruct (cache w !! uid u) as [[v e]|] eqn:Hc; [case_bool_decide|]; simpl; try done.
  all: intros id; simpl; destruct (decide (uid u = id)) as [<-|Hne];
    [done | rewrite lookup_insert_ne by done; apply Hsound].
Qed.

Lemma get_user_permissions_cached_users user w :
  auth_user (world_of (core_permissions.get_user_permissions_cached user w))
  = auth_user w.
Proof.
  by destruct (get_user_permissions_cached_total user w) as (c & ->).
Qed.

Lemma require_permission_cache_sound {A} perm user (func : M A) w :
  cache_sound w → requester_stored w user →
  (∀ w', cache_sound w' → auth_user w' = auth_user w → cache_sound (world_of (func w'))) →
  cache_sound (world_of (core_permissions.require_permission perm user func w)).
Proof.
  intros Hsound Hstored Hfunc.
  pose proof (get_user_permissions_cached_cache_sound user w Hsound Hstored) as Hsound'.
  pose proof (get_user_permissions_cached_users user w) as Husers.
  unfold core_permissions.require_permission, core_permissions.has_permission.
  unfold bind at 1 2.
  destruct (core_permissions.get_user_permissions_cached user w) as [w' [e|perms]];
    simpl in *; [done|].
  destruct (bool_decide _); simpl; [by apply Hfunc | done].
Qed.

Lemma role_change_cache_sound (grant : bool) self_user (P : User) group_id w :
  cache_sound w → requester_stored w self_user →
  cache_sound (world_of
    (if grant
     then users_services.UserPermissionService.assign_role self_user P group_id w
     else users_services.UserPermissionService.remove_role self_user P group_id w)).
Proof.
  intros Hsound Hstored.
  destruct grant; apply require_permission_cache_sound; try done.
  all: intros w' Hsound' _; unfold bind at 1; rewrite group_get_run; simpl.
  all: destruct (bool_decide (is_Some _)); [|done].
  all: unfold core_permissions.invalidate_user_permissions_cache,
         django.cache_api.delete; run.
  all: intros k [v Hk]; simpl in *.
  all: apply lookup_delete_Some in Hk as [_ Hk]; apply Hsound'; by eexists.
Qed.

Lemma delete_user_cache_sound self_user (target : User) w :
  cache_sound w → requester_stored w self_user →
  cache_sound (world_of (users_services.UserService.delete_user self_user target w)).
Proof.
  intros Hsound Hstored. apply require_permission_cache_sound; try done.
  intros w' Hsound' _.
  unfold users_services.transaction_atomic, users_services.self_user_id,
    models.User_save, models.create_user_profile, models.save_user_profile,
    models.has_profile, models.UserProfile_save, models.SoftDeleteModel.delete,
    core_permissions.invalidate_user_permissions_cache, django.cache_api.delete.
  destruct self_user as [| |u]; run; try done.
  all: repeat (case_bool_decide; simpl); try exact Hsound'.
  all: intros k [v Hk]; simpl in *.
  all: apply lookup_delete_Some in Hk as [_ Hk].
  all: destruct (decide (uid target = k)) as [<-|Hne];
    [rewrite lookup_insert_eq; by eexists
    |rewrite lookup_insert_ne by done; apply Hsound'; by eexists].
Qed.

(** The model against apps/users/tests/test_models.py. *)
Lemma test_profile_created_automatically (user : User) w :
  auth_user w !! uid user = None →
  is_Some (user_profiles (world_of (models.User_save user w)) !! uid user).
Proof.
  intros Hnew. unfold models.User_save, models.create_user_profile,
    models.save_user_profile, models.has_profile, models.UserProfile_save.
  run. rewrite Hnew. rewrite bool_decide_eq_true_2 by done. simpl.
  rewrite lookup_insert_eq. simpl. rewrite lookup_alter_eq, lookup_insert_eq.
  by eexists.
Qed.

Lemma test_soft_delete id p w :
  user_profiles w !! id = Some p →
  ∃ p', user_profiles (world_of (models.SoftDeleteModel.delete id w)) !! id = Some p'
        ∧ deleted_at p' = Some (now w)
        ∧ models.SoftDeleteModel.is_deleted p' = true.
Proof.
  intros Hp. unfold models.SoftDeleteModel.delete. run.
  rewrite lookup_alter_eq, Hp. by eexists.
Qed.

Lemma test_restore_after_soft_delete id p w :
  user_profiles w !! id = Some p →
  ∃ p', user_profiles
          (world_of (models.SoftDeleteModel.restore id
             (world_of (models.SoftDeleteModel.delete id w)))) !! id = Some p'
        ∧ deleted_at p' = None
        ∧ models.SoftDeleteModel.is_deleted p' = false.
Proof.
  intros Hp. unfold models.SoftDeleteModel.delete, models.SoftDeleteModel.restore. run.
  rewrite !lookup_alter_eq, Hp. by eexists.
Qed.

(** ** Role grants and the cache *)

(** What a successful role change leaves behind, for either operation. *)
Lemma role_change_run (grant : bool) self_user (P : User) group_id w w1 :
  (if grant
   then users_services.UserPermissionService.assign_role self_user P group_id w
   else users_services.UserPermissionService.remove_role self_user P group_id w)
  = (w1, inr tt) →
  ∃ c,
    w1 = set_cache (delete (uid P) c)
           (set_auth_user_groups
              (<[uid P := if grant
                          then {[group_id]} ∪ (auth_user_groups w !!! uid P)
                          else (auth_user_groups w !!! uid P) ∖ {[group_id]}]>
                 (auth_user_groups w)) w).
Proof.
  intros Hrun.
  destruct grant;
    [unfold users_services.UserPermissionService.assign_role in Hrun
    |unfold users_services.UserPermissionService.remove_role in Hrun].
  all: open_gate Hrun c.
  all: destruct (bool_decide _); [|discriminate].
  all: unfold bind at 1 in Hrun; rewrite group_get_run in Hrun.
  all: simpl in Hrun; destruct (bool_decide (is_Some _)); [|discriminate].
  all: exists c.
  all: unfold core_permissions.invalidate_user_permissions_cache,
         django.cache_api.delete in Hrun; run.
  all: by injection Hrun as <-.
Qed.

(** The grants a user has through roles, read off the tables. *)
Lemma elem_of_group_permissions_of w id perm :
  perm ∈ django.group_permissions_of w id ↔
  ∃ gid g, gid ∈ auth_user_groups w !!! id ∧ auth_group w !! gid = Some g ∧
           perm ∈ group_permissions g.
Proof.
  unfold django.group_permissions_of. rewrite elem_of_union_list. split.
  - intros (X & HX & Hperm). apply list_elem_of_fmap in HX as (gid & -> & Hgid).
    apply elem_of_elements in Hgid.
    destruct (auth_group w !! gid) as [g|] eqn:Hg; simpl in Hperm; [|set_solver].
    by exists gid, g.
  - intros (gid & g & Hgid & Hg & Hperm).
    exists (group_permissions g). split; [|done].
    apply list_elem_of_fmap. exists gid. split; [by rewrite Hg|].
    by apply elem_of_elements.
Qed.

(** C2 (as the code has it). After a successful [assign_role] or
    [remove_role] for a stored principal [P], the cache holds no entry for
    [P] when the call returns and [P]'s memberships are the post-mutation
    ones.  Resolving [P] right away through [get_or_compute] succeeds and
    returns a set recomputed from the tables, never a value cached before
    the mutation: for an active [P] that is not a superuser, exactly the
    direct grants of [P] together with the grants of its post-mutation
    roles; for an active superuser, every permission there is; for an
    inactive [P], nothing. *)
Theorem role_change_then_resolve (grant : bool) (w w1 : World)
    (self_user : RequestUser) (P : User) (group_id : nat) :
  auth_user w !! uid P = Some P →
  (if grant
   then users_services.UserPermissionService.assign_role self_user P group_id w
   else users_services.UserPermissionService.remove_role self_user P group_id w)
  = (w1, inr tt) →
  cache w1 !! uid P = None ∧
  auth_user_groups w1 !!! uid P = memberships_after grant w P group_id ∧
  ∃ w2 resolved,
    UserPermissionCache.get_or_compute (uid P) w1 = (w2, inr resolved) ∧
    (is_active P = true → is_superuser P = false →
     ∀ perm, perm ∈ resolved ↔
       perm ∈ auth_user_user_permissions w !!! uid P ∨
       ∃ gid g, gid ∈ memberships_after grant w P group_id ∧
                auth_group w !! gid = Some g ∧ perm ∈ group_permissions g) ∧
    (is_active P = true → is_superuser P = true → resolved = auth_permission w) ∧
    (is_active P = false → resolved = ∅).
Proof.
  intros Hstored Hrun.
  destruct (role_change_run grant self_user P group_id w w1 Hrun) as (c & ->).
  assert (auth_user_groups
            (set_cache (delete (uid P) c)
               (set_auth_user_groups
                  (<[uid P := memberships_after grant w P group_id]> (auth_user_groups w))
                  w)) !!! uid P
          = memberships_after grant w P group_id) as Hmem
    by (simpl; by rewrite lookup_total_insert_eq).
  split; [simpl; apply lookup_delete_eq|].
  split; [exact Hmem|].
  rewrite get_or_compute_run. unfold live_entry. simpl.
  rewrite lookup_delete_eq, Hstored.
  eexists _, _. split; [reflexivity|].
  unfold django.all_permissions_of. split; [|split].
  - intros -> ->. simpl. intros perm.
    rewrite elem_of_union, elem_of_group_permissions_of.
    unfold django.user_permissions_of. simpl.
    fold (memberships_after grant w P group_id).
    by rewrite lookup_total_insert_eq.
  - by intros -> ->.
  - by intros ->.
Qed.

Lemma role_change_then_resolve_witness :
  let w1 := world_of (users_services.UserPermissionService.assign_role
                        (Authenticated demo.admin) demo.alice 2 demo2.direct_world) in
  cache w1 !! 2%nat = None ∧
  auth_user_groups w1 !!! 2%nat = ({[2%nat; 3%nat]} : gset nat) ∧
  ∃ resolved,
    outcome (UserPermissionCache.get_or_compute 2 w1) = inr resolved ∧
    "auth.change_user" ∈ resolved ∧ "auth.delete_user" ∈ resolved.
Proof.
  intros w1.
  destruct (role_change_then_resolve true demo2.direct_world w1
              (Authenticated demo.admin) demo.alice 2)
    as (Hcache & Hmem & w2 & resolved & Hresolve & Hplain & _).
  - vm_compute. reflexivity.
  - vm_compute. reflexivity.
  - split; [exact Hcache|]. split.
    + etransitivity; [exact Hmem|]. vm_compute. reflexivity.
    + exists resolved. split; [exact (f_equal snd Hresolve)|]. split.
      * apply (Hplain eq_refl eq_refl). right.
        exists 2%nat, (mkGroup "Operadores"
                         {[ "auth.view_user"; "auth.add_user"; "auth.change_user" ]}).
        split; [|split]; [vm_compute; set_solver | reflexivity | set_solver].
      * apply (Hplain eq_refl eq_refl). left. vm_compute. set_solver.
Defined.

(** C2, counterexample to the wording "the resolved set equals the set
    recomputed from the post-mutation role memberships union direct
    grants": [bob] is inactive; after he is granted the role Operadores,
    which carries the view permission, his resolved set is empty. *)
Lemma role_change_inactive_counterexample :
  let run := users_services.UserPermissionService.assign_role
               (Authenticated demo.admin) demo.bob 2 demo.world in
  outcome run = inr tt ∧
  2%nat ∈ auth_user_groups (world_of run) !!! 3%nat ∧
  (∃ g, auth_group (world_of run) !! 2%nat = Some g ∧
        "auth.view_user" ∈ group_permissions g) ∧
  outcome (UserPermissionCache.get_or_compute 3 (world_of run))
  = inr (∅ : gset string).
Proof.
  intros run. split; [vm_compute; reflexivity|]. split; [|split].
  - vm_compute. set_solver.
  - eexists. split; [vm_compute; reflexivity|]. set_solver.
  - vm_compute. reflexivity.
Qed.

(** ** Refresh tokens: refresh, logout *)

Lemma RefreshToken_live `{Catalogs} w claims :
  live_refresh_token w claims →
  simplejwt.RefreshToken (Signed true claims) w = (w, inr claims).
Proof.
  intros (Htype & Hexp & Hfree).
  unfold simplejwt.RefreshToken, simplejwt.decode, simplejwt.check_blacklist,
    simplejwt.verify, simplejwt.check_exp, simplejwt.verify_token_type.
  run.
  rewrite bool_decide_eq_false_2 by lia. simpl.
  rewrite bool_decide_eq_false_2 by done. simpl.
  rewrite bool_decide_eq_false_2 by lia. simpl.
  by rewrite Htype.
Qed.

Lemma refresh_token_live `{Catalogs} w claims :
  live_refresh_token w claims →
  auth_services.AuthService.refresh_token (Signed true claims) w =
    (set_next_jti (S (next_jti w)) w,
     inr {[ "access" :=
              Signed true (mkPayload access_type (user_id claims)
                             (now w + settings.ACCESS_TOKEN_LIFETIME) (next_jti w)) ]}).
Proof.
  intros Hlive. unfold auth_services.AuthService.refresh_token, try_except.
  unfold bind at 1. rewrite (RefreshToken_live w claims Hlive).
  reflexivity.
Qed.

(** C3. What [refresh_token] does with a live refresh token although the
    settings enable rotation: the call succeeds, the response has the key
    ['access'] only, the revocation set is untouched, and the same refresh
    token is accepted again by the next call. *)
Theorem refresh_token_does_not_rotate `{Catalogs} (w : World) (claims : Payload) :
  live_refresh_token w claims →
  let result := auth_services.AuthService.refresh_token (Signed true claims) w in
  settings.ROTATE_REFRESH_TOKENS = true ∧
  settings.BLACKLIST_AFTER_ROTATION = true ∧
  (∃ response, outcome result = inr response ∧
               is_Some (response !! "access") ∧ response !! "refresh" = None) ∧
  blacklistedtoken (world_of result) = blacklistedtoken w ∧
  live_refresh_token (world_of result) claims ∧
  (∃ response', outcome (auth_services.AuthService.refresh_token
                           (Signed true claims) (world_of result)) = inr response').
Proof.
  intros Hlive result. subst result.
  rewrite (refresh_token_live w claims Hlive).
  assert (live_refresh_token (set_next_jti (S (next_jti w)) w) claims) as Hlive'
    by exact Hlive.
  repeat split; try done.
  - eexists. split; [reflexivity|]. split; [by eexists|done].
  - apply Hlive.
  - apply Hlive.
  - apply Hlive.
  - unfold world_of. simpl. rewrite (refresh_token_live _ claims Hlive').
    by eexists.
Qed.

Lemma refresh_token_does_not_rotate_witness :
  let result := @auth_services.AuthService.refresh_token demo.catalogs
                  demo.alice_refresh demo.world in
  (∃ response, outcome result = inr response ∧
               is_Some (response !! "access") ∧ response !! "refresh" = None) ∧
  (∃ response', outcome (@auth_services.AuthService.refresh_token demo.catalogs
                           demo.alice_refresh (world_of result)) = inr response').
Proof.
  destruct (@refresh_token_does_not_rotate demo.catalogs demo.world
              (mkPayload refresh_type 2 1300 77))
    as (_ & _ & Hresp & _ & _ & Hagain).
  - split; [reflexivity|]. split; [reflexivity|]. simpl. set_solver.
  - split; [exact Hresp | exact Hagain].
Defined.

Lemma refresh_token_undecodable `{Catalogs} w token :
  (∀ claims, token ≠ Signed true claims) →
  auth_services.AuthService.refresh_token token w = (w, inl InvalidToken_failure).
Proof.
  intros Hbad. unfold auth_services.AuthService.refresh_token,
    simplejwt.RefreshToken, simplejwt.decode.
  destruct token as [raw|[] claims]; try reflexivity.
  by destruct (Hbad claims).
Qed.

Lemma refresh_token_expired `{Catalogs} w claims :
  exp claims ≤ now w →
  auth_services.AuthService.refresh_token (Signed true claims) w
  = (w, inl ExpiredToken_failure).
Proof.
  intros Hexp. unfold auth_services.AuthService.refresh_token,
    simplejwt.RefreshToken, simplejwt.decode.
  run. by rewrite bool_decide_eq_true_2.
Qed.

Lemma refresh_token_blacklisted `{Catalogs} w claims :
  now w < exp claims → jti claims ∈ blacklistedtoken w →
  auth_services.AuthService.refresh_token (Signed true claims) w
  = (w, inl Revoked_failure).
Proof.
  intros Hexp Hlisted. unfold auth_services.AuthService.refresh_token,
    simplejwt.RefreshToken, simplejwt.decode, simplejwt.check_blacklist.
  run. rewrite bool_decide_eq_false_2 by lia. simpl.
  by rewrite bool_decide_eq_true_2.
Qed.

(** A successful logout was given a live refresh token and put its id in
    the revocation set. *)
Lemma logout_success `{Catalogs} w w1 token :
  auth_services.AuthService.logout token w = (w1, inr tt) →
  ∃ claims, token = Signed true claims ∧ now w < exp claims ∧
            w1 = set_blacklistedtoken ({[jti claims]} ∪ blacklistedtoken w) w.
Proof.
  unfold auth_services.AuthService.logout, simplejwt.RefreshToken, simplejwt.decode,
    simplejwt.check_blacklist, simplejwt.verify, simplejwt.check_exp,
    simplejwt.verify_token_type, simplejwt.blacklist.
  intros Hrun. destruct token as [raw|[] claims]; run; try discriminate.
  exists claims.
  repeat (case_bool_decide; simpl in Hrun; try discriminate).
  destruct (token_type claims); simpl in Hrun; [discriminate|].
  injection Hrun as <-. split; [done|]. split; [lia|done].
Qed.

(** C5 (as the code has it). After a successful logout with a refresh
    token, every later [refresh_token] call with that token fails and
    changes nothing, in every world whose revocation set still contains
    the one the logout left (the set only grows).  While the token is
    unexpired the failure is the revoked one: the service's prefix
    followed by the library's message for a blacklisted token in the
    active language.  Once the token has expired the failure is that of an
    expired token, the expiry being checked before the revocation set.
    The revoked failure differs from the failures for an undecodable and
    for an expired token whenever the catalogue renders the three messages
    differently. *)
Theorem refresh_after_logout `{Catalogs} (w w1 : World) (token : JWT) :
  auth_services.AuthService.logout token w = (w1, inr tt) →
  ∃ claims, token = Signed true claims ∧
    (∀ w2, blacklistedtoken w1 ⊆ blacklistedtoken w2 →
       auth_services.AuthService.refresh_token token w2 =
         (w2, inl (if bool_decide (now w2 < exp claims)
                   then Revoked_failure else ExpiredToken_failure))) ∧
    (revoked_message_distinct →
     Revoked_failure ≠ InvalidToken_failure ∧ Revoked_failure ≠ ExpiredToken_failure) ∧
    (∀ w2, (∀ raw, auth_services.AuthService.refresh_token (Malformed raw) w2
                   = (w2, inl InvalidToken_failure)) ∧
           (∀ foreign, auth_services.AuthService.refresh_token (Signed false foreign) w2
                       = (w2, inl InvalidToken_failure)) ∧
           (∀ old, exp old ≤ now w2 →
                   auth_services.AuthService.refresh_token (Signed true old) w2
                   = (w2, inl ExpiredToken_failure))).
Proof.
  intros Hrun.
  destruct (logout_success w w1 token Hrun) as (claims & -> & Hexp & ->).
  exists claims. split; [done|]. split; [|split].
  - intros w2 Hsub. case_bool_decide as Hlive.
    + apply refresh_token_blacklisted; [done|].
      apply Hsub. simpl. set_solver.
    + apply refresh_token_expired. lia.
  - intros [Hinvalid Hexpired].
    unfold Revoked_failure, InvalidToken_failure, ExpiredToken_failure, token_failure.
    split; intros Heq; injection Heq as Heq; simpl in Heq; done.
  - intros w2. split; [|split].
    + intros raw. by apply refresh_token_undecodable.
    + intros foreign. by apply refresh_token_undecodable.
    + intros old Hold. by apply refresh_token_expired.
Qed.

(** With the Spanish catalogue the revoked failure reads 'Token inválido:
    El token está en lista negra' and differs from the other two. *)
Lemma refresh_after_logout_witness :
  let w1 := world_of (@auth_services.AuthService.logout demo.catalogs
                        demo.alice_refresh demo.world) in
  @auth_services.AuthService.refresh_token demo.catalogs demo.alice_refresh w1
  = (w1, inl (ValidationError "Token inválido: El token está en lista negra")) ∧
  @Revoked_failure demo.catalogs ≠ @InvalidToken_failure demo.catalogs ∧
  @Revoked_failure demo.catalogs ≠ @ExpiredToken_failure demo.catalogs.
Proof.
  intros w1.
  destruct (@refresh_after_logout demo.catalogs demo.world w1 demo.alice_refresh)
    as (claims & Htok & Hfail & Hdistinct & _).
  - vm_compute. reflexivity.
  - injection Htok as <-. split.
    + rewrite (Hfail w1) by done. reflexivity.
    + apply Hdistinct. split; vm_compute; discriminate.
Defined.

(** C5, counterexample to the wording "every subsequent refresh fails
    with Revoked": a token revoked by logout at instant 1000 and presented
    again at its expiry instant 1300 is refused with the failure of an
    expired token, not with the revoked one. *)
Lemma refresh_after_logout_expired_counterexample :
  let w1 := world_of (@auth_services.AuthService.logout demo.catalogs
                        demo.alice_refresh demo.world) in
  outcome (@auth_services.AuthService.logout demo.catalogs demo.alice_refresh demo.world)
  = inr tt ∧
  outcome (@auth_services.AuthService.refresh_token demo.catalogs
             demo.alice_refresh (tick 300 w1))
  = inl (@ExpiredToken_failure demo.catalogs) ∧
  outcome (@auth_services.AuthService.refresh_token demo.catalogs
             demo.alice_refresh (tick 300 w1))
  ≠ inl (@Revoked_failure demo.catalogs).
Proof.
  intros w1. split; [reflexivity|]. split; [reflexivity|].
  vm_compute. discriminate.
Qed.

(** ** Login *)

Lemma elem_of_rows w (u : User) :
  u ∈ (map_to_list (auth_user w)).*2 ↔ ∃ id, auth_user w !! id = Some u.
Proof.
  rewrite list_elem_of_fmap. split.
  - intros ([id v] & -> & Hin). exists id. by apply elem_of_map_to_list.
  - intros (id & Hid). exists (id, u). split; [done|]. by apply elem_of_map_to_list.
Qed.

Lemma get_by_natural_key_unknown w name :
  unknown_username w name →
  auth_backend.get_by_natural_key name w = (w, inl (DoesNotExist "User")).
Proof.
  intros Hunknown. unfold auth_backend.get_by_natural_key. run.
  destruct (head _) as [v|] eqn:Hhead; [|done].
  apply head_Some_elem_of, list_elem_of_filter in Hhead as [Hname Hin].
  apply elem_of_rows in Hin as (id & Hid).
  by destruct (Hunknown id v Hid).
Qed.

Lemma get_by_natural_key_found w name u :
  principal_named w name u →
  auth_backend.get_by_natural_key name w = (w, inr u).
Proof.
  intros (Hstored & Hname & Hunique). unfold auth_backend.get_by_natural_key. run.
  destruct (head _) as [v|] eqn:Hhead.
  - apply head_Some_elem_of, list_elem_of_filter in Hhead as [Hv Hin].
    apply elem_of_rows in Hin as (id & Hid).
    by rewrite (Hunique id v Hid Hv).
  - apply head_None in Hhead.
    assert (u ∈ filter (λ u0, username u0 = name) (map_to_list (auth_user w)).*2) as Hin.
    { apply list_elem_of_filter. split; [done|]. apply elem_of_rows. eauto. }
    rewrite Hhead in Hin. by apply elem_of_nil in Hin.
Qed.

Section login.
Context `{PasswordHasher}.

Lemma authenticate_unknown w name raw_password :
  unknown_username w name →
  auth_backend.authenticate name raw_password w = (w, inr None).
Proof.
  intros Hunknown. unfold auth_backend.authenticate, try_except.
  unfold bind at 1. by rewrite get_by_natural_key_unknown.
Qed.

Lemma authenticate_found w name raw_password u :
  principal_named w name u →
  auth_backend.authenticate name raw_password w =
    (w, inr (if auth_backend.check_password u raw_password && is_active u
             then Some u else None)).
Proof.
  intros Hnamed. unfold auth_backend.authenticate, try_except.
  unfold bind at 1. rewrite (get_by_natural_key_found w name u Hnamed).
  unfold auth_backend.user_can_authenticate.
  by destruct (_ && _).
Qed.

(** C6. A login with a username no principal has and a login with the
    username of a principal but a password that does not match its hash
    end the same way: both raise [AuthenticationFailed] with the one
    message 'Credenciales inválidas', and neither changes the world. *)
Theorem login_unknown_user_or_wrong_password
    (w1 w2 : World) (name1 password1 name2 password2 : string) (u : User) :
  unknown_username w1 name1 →
  principal_named w2 name2 u →
  auth_backend.check_password u password2 = false →
  auth_services.AuthService.login name1 password1 w1 = (w1, inl InvalidCredentials) ∧
  auth_services.AuthService.login name2 password2 w2 = (w2, inl InvalidCredentials) ∧
  outcome (auth_services.AuthService.login name1 password1 w1)
  = outcome (auth_services.AuthService.login name2 password2 w2).
Proof.
  intros Hunknown Hnamed Hwrong.
  assert (auth_services.AuthService.login name1 password1 w1
          = (w1, inl InvalidCredentials)) as H1.
  { unfold auth_services.AuthService.login. unfold bind at 1.
    by rewrite authenticate_unknown. }
  assert (auth_services.AuthService.login name2 password2 w2
          = (w2, inl InvalidCredentials)) as H2.
  { unfold auth_services.AuthService.login. unfold bind at 1.
    rewrite (authenticate_found w2 name2 password2 u Hnamed), Hwrong.
    reflexivity. }
  split; [done|]. split; [done|]. by rewrite H1, H2.
Qed.

(** What [login] does for a deactivated principal presenting its correct
    password: the backend has already refused the inactive user, so the
    branch for 'Usuario inactivo' is never reached. *)
Lemma login_inactive w name raw_password u :
  principal_named w name u →
  auth_backend.check_password u raw_password = true →
  is_active u = false →
  auth_services.AuthService.login name raw_password w = (w, inl InvalidCredentials).
Proof.
  intros Hnamed Hright Hinactive.
  unfold auth_services.AuthService.login. unfold bind at 1.
  rewrite (authenticate_found w name raw_password u Hnamed), Hright, Hinactive.
  reflexivity.
Qed.

End login.

Lemma demo_unknown_username : unknown_username demo.world "mallory".
Proof.
  intros id u Hid Hname.
  assert (u ∈ (map_to_list (auth_user demo.world)).*2) as Hin
    by (apply elem_of_rows; eauto).
  vm_compute in Hin.
  repeat (apply elem_of_cons in Hin as [-> | Hin]; [discriminate Hname|]).
  by apply elem_of_nil in Hin.
Defined.

Lemma demo_principal_named (u : User) :
  auth_user demo.world !! uid u = Some u →
  principal_named demo.world (username u) u.
Proof.
  intros Hstored. split; [done|]. split; [done|].
  intros id v Hid Hname.
  assert (v ∈ (map_to_list (auth_user demo.world)).*2) as Hv
    by (apply elem_of_rows; eauto).
  assert (u ∈ (map_to_list (auth_user demo.world)).*2) as Hu
    by (apply elem_of_rows; eauto).
  vm_compute in Hv, Hu.
  repeat (apply elem_of_cons in Hv as [-> | Hv]);
    try (by apply elem_of_nil in Hv);
    repeat (apply elem_of_cons in Hu as [-> | Hu]);
    try (by apply elem_of_nil in Hu);
    first [reflexivity | discriminate Hname].
Defined.

Lemma login_unknown_user_or_wrong_password_witness :
  outcome (@auth_services.AuthService.login demo.hasher "mallory" "guess" demo.world)
  = outcome (@auth_services.AuthService.login demo.hasher "alice" "guess" demo.world).
Proof.
  apply (@login_unknown_user_or_wrong_password demo.hasher demo.world demo.world
           "mallory" "guess" "alice" "guess" demo.alice).
  - exact demo_unknown_username.
  - apply (demo_principal_named demo.alice). reflexivity.
  - reflexivity.
Defined.

(** C7, the failing input: [bob] exists, 'bob12345' matches his stored
    hash and his account is deactivated; [login] answers with the generic
    'Credenciales inválidas', not with 'Usuario inactivo'. *)
Theorem login_inactive_account_is_invalid_credentials :
  principal_named demo.world "bob" demo.bob ∧
  @auth_backend.check_password demo.hasher demo.bob "bob12345" = true ∧
  is_active demo.bob = false ∧
  outcome (@auth_services.AuthService.login demo.hasher "bob" "bob12345" demo.world)
  = inl InvalidCredentials ∧
  outcome (@auth_services.AuthService.login demo.hasher "bob" "bob12345" demo.world)
  ≠ inl InactiveAccount.
Proof.
  assert (principal_named demo.world "bob" demo.bob) as Hnamed
    by (apply (demo_principal_named demo.bob); reflexivity).
  split; [exact Hnamed|]. split; [reflexivity|]. split; [reflexivity|].
  rewrite (@login_inactive demo.hasher demo.world "bob" "bob12345" demo.bob Hnamed)
    by reflexivity.
  split; [reflexivity|]. discriminate.
Qed.

(** ** Account lifecycle: create, update, delete *)

(** C9. [create_user] never adds a principal itself.  For a requester who
    passes the permission check, it fails with the quota error whenever
    the number of active principals is at or above the ceiling
    [max_users], and otherwise returns the validated data to its caller,
    whose serializer then creates the account. *)
Theorem create_user_quota (w : World) (self_user : RequestUser)
    (validated_data : users_services.ValidatedData) :
  let result := users_services.UserService.create_user self_user validated_data w in
  auth_user (world_of result) = auth_user w ∧
  (gate_passes w self_user "auth.add_user" →
   ((users_services.UserService.max_users ≤ active_principals w)%nat →
    outcome result = inl QuotaExceeded) ∧
   ((active_principals w < users_services.UserService.max_users)%nat →
    outcome result = inr validated_data)).
Proof.
  intros result. subst result. unfold users_services.UserService.create_user.
  open_gate_goal c.
  unfold django.User_objects_filter_active_count, active_principals. run.
  split.
  - destruct (bool_decide (_ ∈ _)); [case_bool_decide|]; simpl; done.
  - intros Hgate. apply gate_passes_iff in Hgate.
    rewrite (bool_decide_eq_true_2 _ Hgate). split; intros Hcount.
    + rewrite bool_decide_eq_true_2 by done. reflexivity.
    + rewrite bool_decide_eq_false_2 by lia. reflexivity.
Qed.

Lemma create_user_quota_witness :
  outcome (users_services.UserService.create_user (Authenticated demo.admin)
             (users_services.mkValidated (Some true) None ∅) demo.crowded)
  = inl QuotaExceeded ∧
  outcome (users_services.UserService.create_user (Authenticated demo.admin)
             (users_services.mkValidated (Some true) None ∅) demo.world)
  = inr (users_services.mkValidated (Some true) None ∅).
Proof.
  split.
  - destruct (create_user_quota demo.crowded (Authenticated demo.admin)
                (users_services.mkValidated (Some true) None ∅)) as (_ & Hgate).
    destruct Hgate as (Hfull & _); [vm_compute; reflexivity|].
    apply Hfull. vm_compute. lia.
  - destruct (create_user_quota demo.world (Authenticated demo.admin)
                (users_services.mkValidated (Some true) None ∅)) as (_ & Hgate).
    destruct Hgate as (_ & Hroom); [vm_compute; reflexivity|].
    apply Hroom. vm_compute. lia.
Defined.

(** C8. A delete by a requester other than the target who passes the
    permission check, for a stored target, succeeds; afterwards the
    target's row is still found by its id and is inactive, the target's
    profile carries the deletion timestamp, the cache has no entry for the
    target, and no row of [auth_user] or [user_profiles] was removed. *)
Theorem delete_user_soft_deletes (w : World) (requester target : User) :
  uid requester ≠ uid target →
  gate_passes w (Authenticated requester) "auth.delete_user" →
  is_Some (auth_user w !! uid target) →
  let result := users_services.UserService.delete_user (Authenticated requester) target w in
  outcome result = inr tt ∧
  auth_user (world_of result) !! uid target
  = Some (mkUser (uid target) (username target) (password target) false
            (is_superuser target) (last_login target)) ∧
  (∀ p, user_profiles w !! uid target = Some p →
        user_profiles (world_of result) !! uid target
        = Some (mkProfile (created_at p) (now w) (Some (now w)))) ∧
  cache (world_of result) !! uid target = None ∧
  (∀ id, is_Some (auth_user w !! id) → is_Some (auth_user (world_of result) !! id)) ∧
  (∀ id, is_Some (user_profiles w !! id) →
         is_Some (user_profiles (world_of result) !! id)).
Proof.
  intros Hother Hgate [row Hrow] result. subst result.
  apply gate_passes_iff in Hgate.
  unfold users_services.UserService.delete_user.
  open_gate_goal c.
  rewrite (bool_decide_eq_true_2 _ Hgate).
  unfold users_services.transaction_atomic, users_services.self_user_id,
    models.User_save, models.create_user_profile, models.save_user_profile,
    models.has_profile, models.UserProfile_save, models.SoftDeleteModel.delete,
    core_permissions.invalidate_user_permissions_cache, django.cache_api.delete.
  run.
  rewrite bool_decide_eq_false_2 by congruence. simpl.
  rewrite Hrow. rewrite (bool_decide_eq_false_2 (Some row = None)) by done.
  simpl.
  destruct (user_profiles w !! uid target) as [p|] eqn:Hp.
  - rewrite (bool_decide_eq_true_2 (is_Some (Some p))) by eauto. simpl.
    rewrite lookup_alter_eq, Hp. simpl.
    repeat split.
    + apply lookup_insert_eq.
    + intros p' [= <-]. rewrite !lookup_alter_eq, Hp. reflexivity.
    + apply lookup_delete_eq.
    + intros id Hid. destruct (decide (uid target = id)) as [<-|Hne].
      * rewrite lookup_insert_eq. by eexists.
      * by rewrite lookup_insert_ne.
    + intros id Hid. destruct (decide (uid target = id)) as [<-|Hne].
      * rewrite !lookup_alter_eq, Hp. by eexists.
      * by rewrite !lookup_alter_ne.
  - rewrite (bool_decide_eq_false_2 (is_Some None)) by (by intros [? ?]). simpl.
    rewrite Hp. rewrite (bool_decide_eq_false_2 (is_Some None)) by (by intros [? ?]).
    simpl.
    repeat split.
    + apply lookup_insert_eq.
    + intros p' [=].
    + apply lookup_delete_eq.
    + intros id Hid. destruct (decide (uid target = id)) as [<-|Hne].
      * rewrite lookup_insert_eq. by eexists.
      * by rewrite lookup_insert_ne.
    + done.
Qed.

Lemma delete_user_soft_deletes_witness :
  let result := users_services.UserService.delete_user
                  (Authenticated demo.admin) demo.alice demo.world in
  outcome result = inr tt ∧
  (is_active <$> auth_user (world_of result) !! 2%nat) = Some false ∧
  (deleted_at <$> user_profiles (world_of result) !! 2%nat) = Some (Some 1000).
Proof.
  intros result.
  destruct (delete_user_soft_deletes demo.world demo.admin demo.alice)
    as (Hok & Hrow & Hprofile & _).
  - vm_compute. discriminate.
  - vm_compute. reflexivity.
  - vm_compute. by eexists.
  - split; [exact Hok|]. split.
    + etransitivity; [exact (f_equal (fmap is_active) Hrow)|]. reflexivity.
    + etransitivity;
        [exact (f_equal (fmap deleted_at) (Hprofile (mkProfile 0 0 None) eq_refl))|].
      reflexivity.
Defined.

(** C4 (as the code has it). A principal acting on itself, whatever its
    superuser flag, never succeeds in deactivating, demoting or deleting
    itself, and the failing call leaves every stored record as it was
    (only the cache may have been filled by the permission check).  The
    permission check of the decorator comes first: a requester without the
    operation's permission gets its 'No tienes permiso' failure.  A
    requester who passes it gets SelfDeactivation for an update that sets
    the account inactive, SelfDemotion for an update that drops the
    Administrator role it holds without also deactivating, and
    SelfDeletion for a delete. *)
Theorem self_protection (w : World) (requester target : User)
    (changes : users_services.ValidatedData) :
  uid target = uid requester →
  let self := Authenticated requester in
  (users_services.vd_is_active changes = Some false →
   ∃ w', same_records w w' ∧
     users_services.UserService.update_user self target changes w =
       (w', inl (if bool_decide ("auth.change_user" ∈ resolve w self)
                 then SelfDeactivation
                 else missing_permission "auth.change_user"))) ∧
  (removes_admin_role w target changes →
   ∃ w', same_records w w' ∧
     users_services.UserService.update_user self target changes w =
       (w', inl (if bool_decide ("auth.change_user" ∈ resolve w self)
                 then if bool_decide (users_services.vd_is_active changes = Some false)
                      then SelfDeactivation else SelfDemotion
                 else missing_permission "auth.change_user"))) ∧
  (∃ w', same_records w w' ∧
     users_services.UserService.delete_user self target w =
       (w', inl (if bool_decide ("auth.delete_user" ∈ resolve w self)
                 then SelfDeletion
                 else missing_permission "auth.delete_user"))).
Proof.
  intros Hself self. subst self. repeat split.
  - intros Hoff. unfold users_services.UserService.update_user.
    open_gate_goal c. exists (set_cache c w).
    split; [apply same_records_set_cache|].
    destruct (bool_decide (_ ∈ _)); [|reflexivity].
    unfold users_services.self_user_id. run.
    rewrite Hself, Hoff. rewrite bool_decide_eq_true_2 by done. reflexivity.
  - intros (new_ids & admin_id & Hids & Hadmin & Hholds & Hdrops).
    unfold users_services.UserService.update_user.
    open_gate_goal c. exists (set_cache c w).
    split; [apply same_records_set_cache|].
    destruct (bool_decide (_ ∈ _)); [|reflexivity].
    unfold users_services.self_user_id,
      django.Group_objects_filter_name_first in *.
    run. injection Hadmin as Hadmin.
    rewrite Hself, Hids. rewrite bool_decide_eq_true_2 by done. simpl.
    case_bool_decide; simpl; [reflexivity|].
    rewrite Hadmin. rewrite <- Hself.
    rewrite (bool_decide_eq_true_2 _ Hholds).
    rewrite bool_decide_eq_false_2 by (by rewrite elem_of_list_to_set).
    reflexivity.
  - unfold users_services.UserService.delete_user.
    open_gate_goal c. exists (set_cache c w).
    split; [apply same_records_set_cache|].
    destruct (bool_decide (_ ∈ _)); [|reflexivity].
    unfold users_services.transaction_atomic, users_services.self_user_id. run.
    rewrite Hself. rewrite bool_decide_eq_true_2 by done. reflexivity.
Qed.

Lemma self_protection_witness :
  outcome (users_services.UserService.delete_user
             (Authenticated demo.admin) demo.admin demo.world) = inl SelfDeletion ∧
  outcome (users_services.UserService.update_user
             (Authenticated demo.root) demo.root
             (users_services.mkValidated (Some false) None ∅) demo.world)
  = inl SelfDeactivation ∧
  outcome (users_services.UserService.update_user
             (Authenticated demo.admin) demo.admin
             (users_services.mkValidated None (Some [2%nat]) ∅) demo.world)
  = inl SelfDemotion.
Proof.
  split; [|split].
  - destruct (self_protection demo.world demo.admin demo.admin
                (users_services.mkValidated None None ∅) eq_refl)
      as (_ & _ & (w' & _ & Hdelete)).
    etransitivity; [exact (f_equal snd Hdelete)|]. reflexivity.
  - destruct (self_protection demo.world demo.root demo.root
                (users_services.mkValidated (Some false) None ∅) eq_refl)
      as (Hoff & _ & _).
    destruct (Hoff eq_refl) as (w' & _ & Hupdate).
    etransitivity; [exact (f_equal snd Hupdate)|]. reflexivity.
  - destruct (self_protection demo.world demo.admin demo.admin
                (users_services.mkValidated None (Some [2%nat]) ∅) eq_refl)
      as (_ & Hdrop & _).
    destruct Hdrop as (w' & _ & Hupdate).
    { exists [2%nat], 1%nat. split; [reflexivity|]. split; [reflexivity|].
      split; [vm_compute; set_solver|]. apply not_elem_of_cons. split; [done|].
      apply not_elem_of_nil. }
    etransitivity; [exact (f_equal snd Hupdate)|]. reflexivity.
Defined.

(** C4, counterexample to the wording "every requesting principal ...
    fails (SelfDeletion)": [alice] holds 'auth.view_user' only; her
    attempt to delete herself is refused by the permission check with
    'No tienes permiso: auth.delete_user', not with SelfDeletion. *)
Lemma self_delete_without_permission_counterexample :
  outcome (users_services.UserService.delete_user
             (Authenticated demo.alice) demo.alice demo.world)
  = inl (missing_permission "auth.delete_user") ∧
  outcome (users_services.UserService.delete_user
             (Authenticated demo.alice) demo.alice demo.world)
  ≠ inl SelfDeletion.
Proof.
  split; [reflexivity|]. vm_compute. discriminate.
Qed.

(** ** Further properties: the decorator and the resolvers *)

(** X1. A service method decorated with [require_permission] is never
    entered by a caller without an authenticated user: whatever the body
    is, the call raises the permission failure and leaves the world,
    cache included, untouched. *)
Theorem require_permission_unauthenticated {A} (perm : string) (func : M A) (w : World) :
  core_permissions.require_permission perm NoUser func w
  = (w, inl (missing_permission perm)) ∧
  core_permissions.require_permission perm AnonymousUser func w
  = (w, inl (missing_permission perm)).
Proof. split; reflexivity. Qed.

(** The resolver on a user object, run. *)
Lemma object_resolver_run (user : user_object.UserObject) w :
  user_object.get_user_permissions_cached user w =
    match live_entry (cache w) (now w) (uid (user_object.attributes user)) with
    | Some perms => (w, inr (user, perms))
    | None =>
        let row := user_object.attributes user in
        let '(user', perms) :=
          if negb (is_active row) then (user, ∅)
          else match user_object._perm_cache user with
               | Some memo => (user, memo)
               | None => (user_object.mkObject row (Some (django.all_permissions_of w row)),
                          django.all_permissions_of w row)
               end in
        (set_cache (<[uid row := (perms, now w + 3600)]> (cache w)) w, inr (user', perms))
    end.
Proof.
  unfold user_object.get_user_permissions_cached, user_object.get_all_permissions,
    django.cache_api.get, django.cache_api.set, django.all_permissions_of, live_entry.
  run. destruct (cache w !! uid (user_object.attributes user)) as [[v e]|];
    [case_bool_decide|]; simpl; try reflexivity.
  all: destruct (is_active (user_object.attributes user)); simpl; try reflexivity.
  all: destruct (user_object._perm_cache user); reflexivity.
Qed.

(** For an object that has just been loaded, the resolver on objects does
    what the resolver on attributes does. *)
Lemma loaded_object_run (u : User) w :
  ∃ user', user_object.get_user_permissions_cached (user_object.loaded u) w =
    (world_of (core_permissions.get_user_permissions_cached (Authenticated u) w),
     inr (user', resolve w (Authenticated u))).
Proof.
  unfold resolve. rewrite object_resolver_run, core_resolver_run. simpl.
  destruct (live_entry _ _ _); simpl; [by eexists|].
  unfold django.all_permissions_of.
  destruct (is_active u); simpl; by eexists.
Qed.



(** X3. The helper [get_user_permissions_cached] of the cache module,
    which loads the user by id, and the one of [core.permissions], which
    asks the object it is given, return the same set and leave the same
    world for an object that equals its stored row and has just been
    loaded, and for any such object while a cache entry is live.  On a
    miss with an active object that was asked before they part: the core
    helper returns and stores the set the object remembers, the helper of
    the cache module the set computed from the tables. *)
Theorem resolvers_agree (user : user_object.UserObject) (w : World) :
  auth_user w !! uid (user_object.attributes user) = Some (user_object.attributes user) →
  let by_object := user_object.get_user_permissions_cached user w in
  let by_id := cache_ops.get_user_permissions_cached
                 (Authenticated (user_object.attributes user)) w in
  let entry := live_entry (cache w) (now w) (uid (user_object.attributes user)) in
  (user_object._perm_cache user = None ∨ is_Some entry →
   ∃ w' user' perms, by_object = (w', inr (user', perms)) ∧ by_id = (w', inr perms)) ∧
  (∀ memo, user_object._perm_cache user = Some memo →
     is_active (user_object.attributes user) = true → entry = None →
     outcome by_object = inr (user, memo) ∧
     live_entry (cache (world_of by_object)) (now w) (uid (user_object.attributes user))
     = Some memo ∧
     outcome by_id = inr (django.all_permissions_of w (user_object.attributes user))).
Proof.
  intros Hstored by_object by_id entry. subst by_object by_id entry.
  unfold cache_ops.get_user_permissions_cached.
  rewrite object_resolver_run, get_or_compute_run, Hstored. cbv zeta.
  split.
  - intros [Hfresh|[perms Hlive]].
    + destruct (live_entry _ _ _); [by eexists _, _, _|].
      rewrite Hfresh. unfold django.all_permissions_of.
      destruct (is_active (user_object.attributes user)); simpl; by eexists _, _, _.
    + rewrite Hlive. by eexists _, _, _.
  - intros memo Hmemo Hactive Hmiss. rewrite Hmiss, Hmemo, Hactive. simpl.
    split; [reflexivity|]. split; [|reflexivity].
    unfold live_entry. rewrite lookup_insert_eq.
    by rewrite bool_decide_eq_true_2 by lia.
Qed.

(** The object loaded for [alice] and the object that resolved her
    permissions when she still held the delete permission. *)
Lemma resolvers_agree_witness :
  (∃ w' user' perms,
     user_object.get_user_permissions_cached (user_object.loaded demo.alice) demo.world
     = (w', inr (user', perms)) ∧
     cache_ops.get_user_permissions_cached (Authenticated demo.alice) demo.world
     = (w', inr perms)) ∧
  outcome (user_object.get_user_permissions_cached demo2.alice_asked demo.world)
  = inr (demo2.alice_asked, {[ "auth.view_user"; "auth.delete_user" ]}) ∧
  outcome (cache_ops.get_user_permissions_cached (Authenticated demo.alice) demo.world)
  = inr ({[ "auth.view_user" ]} : gset string).
Proof.
  split.
  - destruct (resolvers_agree (user_object.loaded demo.alice) demo.world eq_refl)
      as [Hsame _].
    apply Hsame. by left.
  - destruct (resolvers_agree demo2.alice_asked demo.world eq_refl) as [_ Hpart].
    destruct (Hpart {[ "auth.view_user"; "auth.delete_user" ]} eq_refl eq_refl eq_refl)
      as (Hobject & _ & Hid).
    split; [exact Hobject|].
    etransitivity; [exact Hid|]. vm_compute. reflexivity.
Defined.

(** ** Further properties: group invalidation and warm-up *)

Lemma set_cache_set_cache c c' w : set_cache c (set_cache c' w) = set_cache c w.
Proof. reflexivity. Qed.

Lemma for_each_delete (ids : list nat) w :
  ∃ c, for_each ids UserPermissionCache.delete w = (set_cache c w, inr tt) ∧
       ∀ k, c !! k = if decide (k ∈ ids) then None else cache w !! k.
Proof.
  revert w. induction ids as [|id ids IH]; intros w.
  - exists (cache w). split; [by rewrite set_cache_id|].
    intros k. destruct (decide (k ∈ [])) as [Hin|]; [|done].
    by apply elem_of_nil in Hin.
  - destruct (IH (set_cache (delete id (cache w)) w)) as (c & Hrun & Hc).
    exists c. split.
    + simpl. unfold bind, UserPermissionCache.delete, django.cache_api.delete, modify.
      exact Hrun.
    + intros k. rewrite Hc. simpl.
      destruct (decide (k ∈ ids)) as [Hin|Hout].
      * rewrite decide_True; [done|]. by apply list_elem_of_further.
      * destruct (decide (k = id)) as [->|Hne].
        -- rewrite decide_True by apply list_elem_of_here. apply lookup_delete_eq.
        -- rewrite decide_False by (by intros [?|?]%elem_of_cons).
           by apply lookup_delete_ne.
Qed.

Lemma elem_of_group_user_ids group_id w k :
  k ∈ (map_to_list
         (filter (λ kv, group_id ∈ auth_user_groups w !!! kv.1) (auth_user w))).*1
  ↔ is_Some (auth_user w !! k) ∧ group_id ∈ auth_user_groups w !!! k.
Proof.
  rewrite list_elem_of_fmap. split.
  - intros ([k' u] & -> & Hin). apply elem_of_map_to_list in Hin.
    apply map_lookup_filter_Some in Hin as [Hrow Hmember]. by split; [eexists|].
  - intros [[u Hrow] Hmember]. exists (k, u). split; [done|].
    apply elem_of_map_to_list, map_lookup_filter_Some. by split.
Qed.

(** X4. [invalidate_group] never raises.  For an existing group it
    removes the cache entry of every stored member of the group, keeps the
    entry of everybody else and changes no table; for an unknown group id
    it changes nothing at all. *)
Theorem invalidate_group_effect (group_id : nat) (w : World) :
  ∃ w', cache_ops.invalidate_group group_id w = (w', inr tt) ∧
    same_records w w' ∧
    (auth_group w !! group_id = None → w' = w) ∧
    (is_Some (auth_group w !! group_id) →
     ∀ k, cache w' !! k =
          if bool_decide (is_Some (auth_user w !! k) ∧
                          group_id ∈ auth_user_groups w !!! k)
          then None else cache w !! k).
Proof.
  unfold cache_ops.invalidate_group, try_except. unfold bind at 1.
  rewrite group_get_run.
  destruct (auth_group w !! group_id) as [g|] eqn:Hg; simpl.
  - unfold cache_ops.group_user_ids. unfold bind at 1, gets.
    match goal with
    | |- context [for_each ?ids _ w] => destruct (for_each_delete ids w) as (c & -> & Hc)
    end.
    exists (set_cache c w). split; [done|]. split; [apply same_records_set_cache|].
    split; [done|]. intros _ k. simpl. rewrite Hc.
    destruct (decide (k ∈ _)) as [Hin|Hout].
    + apply elem_of_group_user_ids in Hin. by rewrite bool_decide_eq_true_2.
    + rewrite bool_decide_eq_false_2; [done|].
      intros Hin. by apply Hout, elem_of_group_user_ids.
  - exists w. split; [done|]. split; [by repeat split|].
    split; [done|]. by intros [? ?].
Qed.

(** X5. After [invalidate_group], the next resolution of any stored
    member of the group is recomputed from the tables as they are then:
    no permission set cached before the invalidation is served to a
    member. *)
Theorem invalidate_group_then_resolve (group_id : nat) (w : World) (member : User) :
  is_Some (auth_group w !! group_id) →
  auth_user w !! uid member = Some member →
  group_id ∈ auth_user_groups w !!! uid member →
  let w' := world_of (cache_ops.invalidate_group group_id w) in
  outcome (UserPermissionCache.get_or_compute (uid member) w')
  = inr (django.all_permissions_of w' member).
Proof.
  intros Hgroup Hrow Hmember w'. subst w'.
  destruct (invalidate_group_effect group_id w)
    as (w' & -> & Hsame & _ & Hcache).
  specialize (Hcache Hgroup (uid member)).
  rewrite bool_decide_eq_true_2 in Hcache by (split; [by eexists|done]).
  destruct Hsame as (_ & Husers & _).
  unfold world_of. simpl. rewrite get_or_compute_run. unfold live_entry.
  by rewrite Hcache, Husers, Hrow.
Qed.

Lemma invalidate_group_then_resolve_witness :
  let w' := world_of (cache_ops.invalidate_group 3 demo2.stale_world) in
  outcome (UserPermissionCache.get_or_compute 2 demo2.stale_world)
  = inr ({[ "auth.view_user"; "auth.delete_user" ]} : gset string) ∧
  outcome (UserPermissionCache.get_or_compute 2 w')
  = inr ({[ "auth.view_user" ]} : gset string).
Proof.
  intros w'. split; [vm_compute; reflexivity|].
  etransitivity.
  - apply (invalidate_group_then_resolve 3 demo2.stale_world demo.alice).
    + vm_compute. by eexists.
    + reflexivity.
    + vm_compute. set_solver.
  - vm_compute. reflexivity.
Defined.

Lemma invalidate_group_effect_witness :
  let w' := world_of (cache_ops.invalidate_group 3 demo2.stale_world) in
  cache demo2.stale_world !! 2%nat
  = Some ({[ "auth.view_user"; "auth.delete_user" ]}, 4000) ∧
  cache w' !! 2%nat = None.
Proof.
  intros w'. split; [reflexivity|].
  destruct (invalidate_group_effect 3 demo2.stale_world)
    as (w'' & Hrun & _ & _ & Hcache).
  subst w'. rewrite Hrun. unfold world_of. simpl.
  rewrite Hcache by (vm_compute; by eexists). vm_compute. reflexivity.
Defined.

Lemma warm_loop (l : list (nat * User)) w :
  (∀ kv, kv ∈ l → auth_user w !! kv.1 = Some kv.2) →
  ∃ c, for_each l (λ kv, UserPermissionCache.get_or_compute kv.1 ;; ret tt) w
       = (set_cache c w, inr tt) ∧
    ∀ k, c !! k =
         if bool_decide (k ∈ l.*1 ∧ live_entry (cache w) (now w) k = None)
         then (λ u, (django.all_permissions_of w u, now w + 3600)) <$> auth_user w !! k
         else cache w !! k.
Proof.
  revert w. induction l as [|[k0 u0] l IH]; intros w Hrows.
  - exists (cache w). split; [by rewrite set_cache_id|].
    intros k. rewrite bool_decide_eq_false_2; [done|].
    intros [Hin _]. by apply elem_of_nil in Hin.
  - assert (auth_user w !! k0 = Some u0) as Hrow0
      by (apply (Hrows (k0, u0)), list_elem_of_here).
    assert (∀ kv, kv ∈ l → auth_user w !! kv.1 = Some kv.2) as Hrest
      by (intros kv Hkv; by apply Hrows, list_elem_of_further).
    simpl. unfold bind at 1 2. rewrite get_or_compute_run.
    destruct (live_entry (cache w) (now w) k0) as [v|] eqn:Hlive.
    + unfold ret at 1. destruct (IH w Hrest) as (c & -> & Hc).
      exists c. split; [done|]. intros k. rewrite Hc.
      destruct (decide (k = k0)) as [->|Hne].
      * rewrite !bool_decide_eq_false_2; [done| |]; intros [_ Hnone]; congruence.
      * erewrite bool_decide_ext; [reflexivity|].
        simpl. rewrite elem_of_cons. intuition congruence.
    + rewrite Hrow0. unfold ret at 1.
      destruct (IH (set_cache
                      (<[k0 := (django.all_permissions_of w u0, now w + 3600)]> (cache w))
                      w) Hrest) as (c & -> & Hc).
      exists c. split; [done|]. intros k. rewrite Hc. simpl.
      destruct (decide (k = k0)) as [->|Hne].
      * rewrite bool_decide_eq_false_2.
        -- rewrite lookup_insert_eq, bool_decide_eq_true_2, Hrow0; [done|].
           split; [apply list_elem_of_here | done].
        -- intros [_ Hnone]. unfold live_entry in Hnone.
           rewrite lookup_insert_eq, bool_decide_eq_true_2 in Hnone by lia. done.
      * unfold live_entry. rewrite !lookup_insert_ne by done.
        erewrite bool_decide_ext; [reflexivity|].
        simpl. rewrite elem_of_cons. intuition congruence.
Qed.

Lemma warm_up_run (user_ids : option (list nat)) w :
  ∃ c, cache_ops.warm_up user_ids w = (set_cache c w, inr tt) ∧
    ∀ k, c !! k =
         match auth_user w !! k with
         | Some u =>
             if bool_decide (warm_selected user_ids k u
                             ∧ live_entry (cache w) (now w) k = None)
             then Some (django.all_permissions_of w u, now w + 3600)
             else cache w !! k
         | None => cache w !! k
         end.
Proof.
  unfold cache_ops.warm_up. unfold bind at 1, gets.
  match goal with
  | |- context [for_each ?l _ w] => destruct (warm_loop l w) as (c & -> & Hc)
  end.
  { intros [k u] Hin. destruct user_ids;
      apply list_elem_of_filter in Hin as [_ Hin]; by apply elem_of_map_to_list in Hin. }
  exists c. split; [done|]. intros k. rewrite Hc.
  destruct (auth_user w !! k) as [u|] eqn:Hrow; simpl.
  - erewrite bool_decide_ext; [reflexivity|].
    split; intros [Hsel Hmiss]; split; try done.
    + apply list_elem_of_fmap in Hsel as ([k' u'] & -> & Hin).
      destruct user_ids; apply list_elem_of_filter in Hin as [Hp Hin];
        apply elem_of_map_to_list in Hin; simpl in *; [done|congruence].
    + apply list_elem_of_fmap. exists (k, u). split; [done|].
      destruct user_ids; apply list_elem_of_filter; (split; [done|]);
        by apply elem_of_map_to_list.
  - rewrite bool_decide_eq_false_2; [done|]. intros [Hsel _].
    apply list_elem_of_fmap in Hsel as ([k' u'] & -> & Hin).
    destruct user_ids; apply list_elem_of_filter in Hin as [_ Hin];
      apply elem_of_map_to_list in Hin; simpl in *; congruence.
Qed.

(** X6. [warm_up] never raises and changes no table.  Afterwards every
    stored user it selects (the active ones by default, or those listed)
    has a live cache entry: the value that was already live, or else the
    permission set computed from the tables. *)
Theorem warm_up_fills (user_ids : option (list nat)) (w : World) (k : nat) (u : User) :
  auth_user w !! k = Some u →
  warm_selected user_ids k u →
  let w' := world_of (cache_ops.warm_up user_ids w) in
  outcome (cache_ops.warm_up user_ids w) = inr tt ∧
  same_records w w' ∧
  live_entry (cache w') (now w') k
  = Some (default (django.all_permissions_of w u) (live_entry (cache w) (now w) k)).
Proof.
  intros Hrow Hsel w'. subst w'.
  destruct (warm_up_run user_ids w) as (c & -> & Hc).
  split; [done|]. split; [apply same_records_set_cache|].
  unfold world_of. simpl. specialize (Hc k). rewrite Hrow in Hc.
  destruct (live_entry (cache w) (now w) k) as [v|] eqn:Hlive; simpl.
  - rewrite bool_decide_eq_false_2 in Hc by (by intros [_ ?]).
    unfold live_entry in *. by rewrite Hc.
  - rewrite bool_decide_eq_true_2 in Hc by done.
    unfold live_entry. rewrite Hc. by rewrite bool_decide_eq_true_2 by lia.
Qed.

Lemma warm_up_fills_witness :
  let w' := world_of (cache_ops.warm_up None demo.world) in
  live_entry (cache w') (now w') 2 = Some ({[ "auth.view_user" ]} : gset string).
Proof.
  intros w'.
  destruct (warm_up_fills None demo.world 2 demo.alice) as (_ & _ & Hlive).
  - reflexivity.
  - reflexivity.
  - etransitivity; [exact Hlive|]. vm_compute. reflexivity.
Defined.

(** X7. [warm_up] never overwrites an entry that is still live, never
    touches the entry of a user it does not select, and never writes an
    entry for an id without a row, listed or not; so it keeps the cache
    sound. *)
Theorem warm_up_keeps (user_ids : option (list nat)) (w : World) :
  let w' := world_of (cache_ops.warm_up user_ids w) in
  (∀ k, is_Some (live_entry (cache w) (now w) k) → cache w' !! k = cache w !! k) ∧
  (∀ k u, auth_user w !! k = Some u → ¬ warm_selected user_ids k u →
          cache w' !! k = cache w !! k) ∧
  (∀ k, auth_user w !! k = None → cache w' !! k = cache w !! k) ∧
  (cache_sound w → cache_sound w').
Proof.
  intros w'. subst w'.
  destruct (warm_up_run user_ids w) as (c & -> & Hc).
  unfold world_of. simpl. repeat split.
  - intros k [v Hlive]. rewrite Hc. destruct (auth_user w !! k); [|done].
    rewrite bool_decide_eq_false_2; [done|]. intros [_ ?]. congruence.
  - intros k u Hrow Hnot. rewrite Hc, Hrow.
    rewrite bool_decide_eq_false_2; [done|]. by intros [? _].
  - intros k Hrow. by rewrite Hc, Hrow.
  - intros Hsound k [v Hk]. simpl in *. rewrite Hc in Hk.
    destruct (auth_user w !! k) as [u|] eqn:Hrow; [by eexists|].
    rewrite <- Hrow. apply Hsound. by eexists.
Qed.

Lemma warm_up_keeps_witness :
  let w' := world_of (cache_ops.warm_up (Some [2%nat; 9%nat]) demo2.stale_world) in
  cache w' !! 2%nat = Some ({[ "auth.view_user"; "auth.delete_user" ]}, 4000) ∧
  cache w' !! 9%nat = None.
Proof.
  intros w'.
  destruct (warm_up_keeps (Some [2%nat; 9%nat]) demo2.stale_world)
    as (Hlive & _ & Hnorow & _).
  split.
  - etransitivity; [apply Hlive; vm_compute; by eexists|]. reflexivity.
  - etransitivity; [apply Hnorow; reflexivity|]. reflexivity.
Defined.

(** ** Further properties: tokens *)

Lemma verify_token_run `{Catalogs} (token : JWT) w :
  auth_services.AuthService.verify_token token w =
    (w, match token with
        | Signed true claims =>
            if bool_decide (exp claims ≤ now w) then inl ExpiredToken_failure
            else match token_type claims with
                 | access_type =>
                     inr (auth_services.mkVerify true (user_id claims) (exp claims))
                 | refresh_type => inl WrongTokenType_failure
                 end
        | _ => inl InvalidToken_failure
        end).
Proof.
  unfold auth_services.AuthService.verify_token, simplejwt.AccessToken,
    simplejwt.decode, simplejwt.verify, simplejwt.check_exp,
    simplejwt.verify_token_type.
  destruct token as [raw|[] claims]; try reflexivity. run.
  repeat (case_bool_decide; simpl); try reflexivity; try (exfalso; lia).
  all: by destruct (token_type claims).
Qed.

Lemma refresh_token_run `{Catalogs} (token : JWT) w :
  auth_services.AuthService.refresh_token token w =
    match token with
    | Signed true claims =>
        if bool_decide (exp claims ≤ now w) then (w, inl ExpiredToken_failure)
        else if bool_decide (jti claims ∈ blacklistedtoken w)
             then (w, inl Revoked_failure)
             else match token_type claims with
                  | refresh_type =>
                      (set_next_jti (S (next_jti w)) w,
                       inr {[ "access" :=
                          Signed true (mkPayload access_type (user_id claims)
                            (now w + settings.ACCESS_TOKEN_LIFETIME) (next_jti w)) ]})
                  | access_type => (w, inl WrongTokenType_failure)
                  end
    | _ => (w, inl InvalidToken_failure)
    end.
Proof.
  unfold auth_services.AuthService.refresh_token, simplejwt.RefreshToken,
    simplejwt.decode, simplejwt.check_blacklist, simplejwt.verify,
    simplejwt.check_exp, simplejwt.verify_token_type, simplejwt.access_token,
    simplejwt.set_jti.
  destruct token as [raw|[] claims]; try reflexivity. run.
  repeat (case_bool_decide; simpl); try reflexivity; try (exfalso; lia).
  all: by destruct (token_type claims).
Qed.

Lemma logout_run `{Catalogs} (token : JWT) w :
  auth_services.AuthService.logout token w =
    match token with
    | Signed true claims =>
        if bool_decide (exp claims ≤ now w) then (w, inl ExpiredToken_failure)
        else if bool_decide (jti claims ∈ blacklistedtoken w)
             then (w, inl Revoked_failure)
             else match token_type claims with
                  | refresh_type =>
                      (set_blacklistedtoken ({[jti claims]} ∪ blacklistedtoken w) w,
                       inr tt)
                  | access_type => (w, inl WrongTokenType_failure)
                  end
    | _ => (w, inl InvalidToken_failure)
    end.
Proof.
  unfold auth_services.AuthService.logout, simplejwt.RefreshToken,
    simplejwt.decode, simplejwt.check_blacklist, simplejwt.verify,
    simplejwt.check_exp, simplejwt.verify_token_type, simplejwt.blacklist.
  destruct token as [raw|[] claims]; try reflexivity. run.
  repeat (case_bool_decide; simpl); try reflexivity; try (exfalso; lia).
  all: by destruct (token_type claims).
Qed.

(** X8. Tokens are not interchangeable: an access token signed by the
    server is refused by [refresh_token] and by [logout], which leave
    the world, in particular the revocation set, as it was; a refresh
    token is refused by [verify_token].  While the token is unexpired and
    its id is not revoked the failure is the service's prefix followed by
    the library's message for a token of the wrong type, in the active
    language. *)
Theorem token_types_not_interchangeable `{Catalogs} (claims : Payload) (w : World) :
  now w < exp claims →
  jti claims ∉ blacklistedtoken w →
  (token_type claims = access_type →
   auth_services.AuthService.refresh_token (Signed true claims) w
   = (w, inl WrongTokenType_failure) ∧
   auth_services.AuthService.logout (Signed true claims) w
   = (w, inl WrongTokenType_failure)) ∧
  (token_type claims = refresh_type →
   auth_services.AuthService.verify_token (Signed true claims) w
   = (w, inl WrongTokenType_failure)).
Proof.
  intros Hexp Hfree. rewrite refresh_token_run, logout_run, verify_token_run.
  rewrite !bool_decide_eq_false_2 by (done || lia).
  split; intros ->; by repeat split.
Qed.

Lemma token_types_not_interchangeable_witness :
  @auth_services.AuthService.refresh_token demo.catalogs demo2.alice_access demo.world
  = (demo.world,
     inl (ValidationError "Token inválido: El token tiene un tipo incorrecto")) ∧
  @auth_services.AuthService.verify_token demo.catalogs demo.alice_refresh demo.world
  = (demo.world,
     inl (ValidationError "Token inválido: El token tiene un tipo incorrecto")).
Proof.
  split.
  - destruct (@token_types_not_interchangeable demo.catalogs
                (mkPayload access_type 2 1120 78) demo.world) as [Haccess _].
    + reflexivity.
    + simpl. set_solver.
    + by destruct (Haccess eq_refl).
  - destruct (@token_types_not_interchangeable demo.catalogs
                (mkPayload refresh_type 2 1300 77) demo.world) as [_ Hrefresh].
    + reflexivity.
    + simpl. set_solver.
    + exact (Hrefresh eq_refl).
Defined.

(** X9. [logout] adds a token id to the revocation set only when it
    succeeds: with a malformed, foreign-signed, expired, already revoked
    or wrong-typed token it fails and changes nothing.  After a successful
    logout a second logout with the same token fails and adds nothing:
    with the revoked failure while the token is unexpired, with the
    failure of an expired token afterwards. *)
Theorem logout_failure_and_repeat `{Catalogs} (token : JWT) (w : World) :
  (∀ e w', auth_services.AuthService.logout token w = (w', inl e) → w' = w) ∧
  (∀ w1, auth_services.AuthService.logout token w = (w1, inr tt) →
     ∃ claims, token = Signed true claims ∧
       blacklistedtoken w1 = {[jti claims]} ∪ blacklistedtoken w ∧
       ∀ w2, blacklistedtoken w1 ⊆ blacklistedtoken w2 →
         auth_services.AuthService.logout token w2 =
           (w2, inl (if bool_decide (now w2 < exp claims)
                     then Revoked_failure else ExpiredToken_failure))).
Proof.
  rewrite logout_run. split.
  - intros e w'. destruct token as [raw|[] claims]; try (by intros [= <- _]).
    repeat case_bool_decide; try (by intros [= <- _]).
    destruct (token_type claims); [by intros [= <- _]|discriminate].
  - intros w1. destruct token as [raw|[] claims]; try discriminate.
    repeat case_bool_decide; try discriminate.
    destruct (token_type claims); [discriminate|]. intros [= <-].
    exists claims. split; [done|]. split; [done|].
    intros w2 Hsub. rewrite logout_run.
    destruct (decide (now w2 < exp claims)) as [Hlive|Hdead].
    + rewrite bool_decide_eq_false_2 by lia.
      rewrite bool_decide_eq_true_2 by (apply Hsub; simpl; set_solver).
      by rewrite bool_decide_eq_true_2.
    + rewrite bool_decide_eq_true_2 by lia. by rewrite bool_decide_eq_false_2.
Qed.

Lemma logout_failure_and_repeat_witness :
  let w1 := world_of (@auth_services.AuthService.logout demo.catalogs demo.alice_refresh demo.world) in
  @auth_services.AuthService.logout demo.catalogs demo.alice_refresh w1
  = (w1, inl (ValidationError "Token inválido: El token está en lista negra")).
Proof.
  intros w1.
  destruct (@logout_failure_and_repeat demo.catalogs demo.alice_refresh demo.world) as [_ Hok].
  destruct (Hok w1) as (claims & Htok & _ & Hagain); [reflexivity|].
  injection Htok as <-. rewrite (Hagain w1) by done. reflexivity.
Defined.

(** X10. [verify_token] looks at the token and the clock only: it never
    changes the world and gives the same answer in any two worlds with
    the same clock.  In particular a logout does not invalidate access
    tokens: after a successful logout with any refresh token, every access
    token verifies exactly as before. *)
Theorem verify_token_ignores_logout `{Catalogs} (access refresh : JWT) (w w1 : World) :
  auth_services.AuthService.logout refresh w = (w1, inr tt) →
  world_of (auth_services.AuthService.verify_token access w1) = w1 ∧
  outcome (auth_services.AuthService.verify_token access w1)
  = outcome (auth_services.AuthService.verify_token access w).
Proof.
  intros Hlogout. rewrite logout_run in Hlogout.
  rewrite !verify_token_run. split; [done|].
  assert (now w1 = now w) as Hnow.
  { destruct refresh as [raw|[] claims]; try discriminate.
    repeat case_bool_decide; try discriminate.
    destruct (token_type claims); [discriminate|]. by injection Hlogout as <-. }
  unfold outcome. simpl. by rewrite Hnow.
Qed.

Lemma verify_token_ignores_logout_witness :
  let w1 := world_of (@auth_services.AuthService.logout demo.catalogs demo.alice_refresh demo.world) in
  outcome (@auth_services.AuthService.verify_token demo.catalogs demo2.alice_access w1)
  = inr (auth_services.mkVerify true 2 1120).
Proof.
  intros w1.
  destruct (@verify_token_ignores_logout demo.catalogs demo2.alice_access demo.alice_refresh
              demo.world w1) as [_ Hsame]; [reflexivity|].
  rewrite Hsame. reflexivity.
Defined.

Lemma get_user_from_token_run `{Catalogs} (token : JWT) w :
  auth_service_ops.get_user_from_token token w =
    (w, match outcome (auth_services.AuthService.verify_token token w) with
        | inl e => inl e
        | inr data =>
            match auth_user w !! auth_services.verify_user_id data with
            | Some u => if is_active u then inr u else inl UserNotFoundOrInactive
            | None => inl UserNotFoundOrInactive
            end
        end).
Proof.
  unfold auth_service_ops.get_user_from_token. unfold bind at 1.
  rewrite verify_token_run. unfold outcome. simpl.
  destruct token as [raw|[] claims]; try reflexivity.
  case_bool_decide; [reflexivity|].
  destruct (token_type claims); [|reflexivity].
  unfold auth_service_ops.User_objects_get_active. run.
  destruct (auth_user w !! user_id claims) as [u|]; [|reflexivity].
  by destruct (is_active u).
Qed.

(** X11. [get_user_from_token] never changes the world.  For a token
    that [verify_token] accepts it returns the stored row of the token's
    user when that row exists and is active, and fails with 'Usuario no
    encontrado o inactivo' both when the row is missing and when it is
    inactive; for a token [verify_token] rejects it fails the same way
    [verify_token] does. *)
Theorem get_user_from_token_spec `{Catalogs} (token : JWT) (w : World) :
  world_of (auth_service_ops.get_user_from_token token w) = w ∧
  (∀ e, outcome (auth_services.AuthService.verify_token token w) = inl e →
        outcome (auth_service_ops.get_user_from_token token w) = inl e) ∧
  (∀ data, outcome (auth_services.AuthService.verify_token token w) = inr data →
     let row := auth_user w !! auth_services.verify_user_id data in
     (∀ u, row = Some u → is_active u = true →
           outcome (auth_service_ops.get_user_from_token token w) = inr u) ∧
     (∀ u, row = Some u → is_active u = false →
           outcome (auth_service_ops.get_user_from_token token w)
           = inl UserNotFoundOrInactive) ∧
     (row = None →
      outcome (auth_service_ops.get_user_from_token token w)
      = inl UserNotFoundOrInactive)).
Proof.
  rewrite get_user_from_token_run. unfold world_of, outcome. simpl.
  split; [done|]. split.
  - by intros e ->.
  - intros data ->. repeat split.
    + by intros u -> ->.
    + by intros u -> ->.
    + by intros ->.
Qed.

Lemma get_user_from_token_spec_witness :
  outcome (@auth_service_ops.get_user_from_token demo.catalogs demo2.alice_access demo.world)
  = inr demo.alice ∧
  outcome (@auth_service_ops.get_user_from_token demo.catalogs
             (Signed true (mkPayload access_type 3 1120 79)) demo.world)
  = inl UserNotFoundOrInactive.
Proof.
  split.
  - destruct (@get_user_from_token_spec demo.catalogs demo2.alice_access demo.world)
      as (_ & _ & Hok).
    destruct (Hok (auth_services.mkVerify true 2 1120) eq_refl) as (Hactive & _).
    by apply Hactive.
  - destruct (@get_user_from_token_spec demo.catalogs
                (Signed true (mkPayload access_type 3 1120 79)) demo.world)
      as (_ & _ & Hok).
    destruct (Hok (auth_services.mkVerify true 3 1120) eq_refl) as (_ & Hinactive & _).
    by apply (Hinactive demo.bob).
Defined.

(** ** Further properties: login *)

Section login_success.
Context `{PasswordHasher} `{Catalogs}.

Lemma login_success_run w name raw_password u :
  principal_named w name u →
  auth_backend.check_password u raw_password = true →
  is_active u = true →
  ∃ w', auth_services.AuthService.login name raw_password w =
      (w', inr (auth_services.mkLogin
                  (Signed true (mkPayload access_type (uid u)
                     (now w + settings.ACCESS_TOKEN_LIFETIME) (S (next_jti w))))
                  (Signed true (mkPayload refresh_type (uid u)
                     (now w + settings.REFRESH_TOKEN_LIFETIME) (next_jti w)))
                  (with_last_login (now w) u))) ∧
    now w' = now w ∧ blacklistedtoken w' = blacklistedtoken w ∧
    cache w' = cache w ∧ next_jti w' = S (S (next_jti w)) ∧
    auth_user w' = alter (with_last_login (now w)) (uid u) (auth_user w) ∧
    auth_user_groups w' = auth_user_groups w.
Proof.
  intros Hnamed Hright Hactive.
  destruct u as [id uname hash active super seen]. simpl in Hactive. subst active.
  unfold auth_services.AuthService.login. unfold bind at 1.
  rewrite (authenticate_found w name raw_password _ Hnamed), Hright.
  unfold with_last_login. simpl.
  unfold simplejwt.for_user, simplejwt.access_token, simplejwt.set_jti,
    models.User_save_last_login, models.create_user_profile,
    models.save_user_profile, models.has_profile, models.UserProfile_save.
  run.
  destruct (bool_decide (is_Some (user_profiles w !! id))); simpl;
    eexists; (split; [reflexivity|]); by repeat split.
Qed.

(** X12. A login of an active principal with its correct password
    succeeds and returns a refresh token and an access token for that
    principal, expiring one refresh lifetime and one access lifetime after
    the login instant; the refresh token is live in the world the login
    leaves (the fresh token id not being a revoked one), the principal's
    row has [last_login] set to the login instant, no other row changes
    and the revocation set and the permission cache are untouched. *)
Theorem login_issues_tokens (w : World) (name raw_password : string) (u : User) :
  principal_named w name u →
  auth_backend.check_password u raw_password = true →
  is_active u = true →
  next_jti w ∉ blacklistedtoken w →
  let result := auth_services.AuthService.login name raw_password w in
  let w' := world_of result in
  ∃ access refresh,
    outcome result = inr (auth_services.mkLogin (Signed true access) (Signed true refresh)
                            (with_last_login (now w) u)) ∧
    user_id access = uid u ∧ token_type access = access_type ∧
    exp access = now w + settings.ACCESS_TOKEN_LIFETIME ∧
    user_id refresh = uid u ∧
    exp refresh = now w + settings.REFRESH_TOKEN_LIFETIME ∧
    live_refresh_token w' refresh ∧
    auth_user w' !! uid u = Some (with_last_login (now w) u) ∧
    (∀ id, id ≠ uid u → auth_user w' !! id = auth_user w !! id) ∧
    blacklistedtoken w' = blacklistedtoken w ∧ cache w' = cache w.
Proof.
  intros Hnamed Hright Hactive Hfresh result w'. subst w' result.
  destruct (login_success_run w name raw_password u Hnamed Hright Hactive)
    as (w' & -> & Hnow & Hlist & Hcache & _ & Husers & _).
  unfold world_of, outcome. simpl.
  eexists _, _. split; [reflexivity|]. simpl.
  repeat split; try done.
  - simpl. rewrite Hnow. unfold settings.REFRESH_TOKEN_LIFETIME. lia.
  - simpl. by rewrite Hlist.
  - rewrite Husers, lookup_alter_eq. destruct Hnamed as (-> & _). reflexivity.
  - intros id Hid. rewrite Husers. by apply lookup_alter_ne.
Qed.

(** X13. The tokens a successful login returns work as a pair: in the
    world the login leaves, [get_user_from_token] maps the access token
    back to the principal's row, and [refresh_token] accepts the refresh
    token and answers with an access token for the same principal; in any
    world, [verify_token] accepts the access token with the principal's id
    up to, and rejects it as expired from, one access lifetime after the
    login. *)
Theorem login_tokens_round_trip (w : World) (name raw_password : string) (u : User)
    (result : auth_services.LoginResult) (w' : World) :
  principal_named w name u →
  auth_backend.check_password u raw_password = true →
  is_active u = true →
  next_jti w ∉ blacklistedtoken w →
  auth_services.AuthService.login name raw_password w = (w', inr result) →
  outcome (auth_service_ops.get_user_from_token (auth_services.login_access result) w')
  = inr (with_last_login (now w) u) ∧
  (∃ access, outcome (auth_services.AuthService.refresh_token
                        (auth_services.login_refresh result) w')
             = inr {[ "access" := Signed true access ]} ∧
             user_id access = uid u ∧ token_type access = access_type) ∧
  (∀ w2, outcome (auth_services.AuthService.verify_token
                    (auth_services.login_access result) w2)
         = if bool_decide (now w2 < now w + settings.ACCESS_TOKEN_LIFETIME)
           then inr (auth_services.mkVerify true (uid u)
                       (now w + settings.ACCESS_TOKEN_LIFETIME))
           else inl ExpiredToken_failure).
Proof.
  intros Hnamed Hright Hactive Hfresh Hrun.
  destruct (login_success_run w name raw_password u Hnamed Hright Hactive)
    as (w'' & Hrun' & Hnow & Hlist & _ & _ & Husers & _).
  rewrite Hrun' in Hrun. injection Hrun as -> <-. simpl.
  split; [|split].
  - rewrite get_user_from_token_run, verify_token_run. unfold outcome. simpl.
    rewrite Hnow.
    rewrite bool_decide_eq_false_2 by (unfold settings.ACCESS_TOKEN_LIFETIME; lia).
    simpl. rewrite Husers, lookup_alter_eq.
    destruct Hnamed as (-> & _). simpl. by rewrite Hactive.
  - rewrite refresh_token_run. simpl. rewrite Hnow, Hlist.
    rewrite bool_decide_eq_false_2 by (unfold settings.REFRESH_TOKEN_LIFETIME; lia).
    rewrite bool_decide_eq_false_2 by done. simpl.
    eexists. split; [reflexivity|]. by split.
  - intros w2. rewrite verify_token_run. unfold outcome. simpl.
    case_bool_decide.
    + by rewrite bool_decide_eq_false_2 by (simpl; lia).
    + by rewrite bool_decide_eq_true_2 by (simpl; lia).
Qed.

End login_success.

Lemma login_issues_tokens_witness :
  ∃ access refresh,
    outcome (@auth_services.AuthService.login demo.hasher "alice" "alice123" demo.world)
    = inr (auth_services.mkLogin (Signed true access) (Signed true refresh)
             (with_last_login 1000 demo.alice)) ∧
    exp access = 1120 ∧ exp refresh = 1300.
Proof.
  destruct (@login_issues_tokens demo.hasher demo.world "alice" "alice123" demo.alice)
    as (access & refresh & Hout & _ & _ & Ha & _ & Hr & _).
  - apply (demo_principal_named demo.alice). reflexivity.
  - reflexivity.
  - reflexivity.
  - simpl. set_solver.
  - exists access, refresh. split; [exact Hout|]. split; [exact Ha | exact Hr].
Defined.

Lemma login_tokens_round_trip_witness :
  let run := @auth_services.AuthService.login demo.hasher "alice" "alice123" demo.world in
  outcome (@auth_service_ops.get_user_from_token demo.catalogs
             (Signed true (mkPayload access_type 2 1120 1)) (world_of run))
  = inr (with_last_login 1000 demo.alice).
Proof.
  intros run.
  destruct (@login_tokens_round_trip demo.hasher demo.catalogs demo.world "alice" "alice123"
              demo.alice
              (auth_services.mkLogin
                 (Signed true (mkPayload access_type 2 1120 1))
                 (Signed true (mkPayload refresh_type 2 1300 0))
                 (with_last_login 1000 demo.alice))
              (world_of run)) as (Hback & _).
  - apply (demo_principal_named demo.alice). reflexivity.
  - reflexivity.
  - reflexivity.
  - simpl. set_solver.
  - vm_compute. reflexivity.
  - exact Hback.
Defined.

(** ** Further properties: soft delete, quota and passwords *)

Lemma delete_user_run w (requester target : User) :
  uid requester ≠ uid target →
  gate_passes w (Authenticated requester) "auth.delete_user" →
  is_Some (auth_user w !! uid target) →
  ∃ w', users_services.UserService.delete_user (Authenticated requester) target w
        = (w', inr tt) ∧
    now w' = now w ∧ blacklistedtoken w' = blacklistedtoken w ∧
    next_jti w' = next_jti w ∧
    auth_user w' = <[uid target := with_is_active false target]> (auth_user w) ∧
    auth_user_groups w' = auth_user_groups w ∧
    auth_user_user_permissions w' = auth_user_user_permissions w ∧
    auth_group w' = auth_group w ∧ auth_permission w' = auth_permission w.
Proof.
  intros Hother Hgate [row Hrow].
  apply gate_passes_iff in Hgate.
  unfold users_services.UserService.delete_user.
  open_gate_goal c.
  rewrite (bool_decide_eq_true_2 _ Hgate).
  unfold users_services.transaction_atomic, users_services.self_user_id,
    models.User_save, models.create_user_profile, models.save_user_profile,
    models.has_profile, models.UserProfile_save, models.SoftDeleteModel.delete,
    core_permissions.invalidate_user_permissions_cache, django.cache_api.delete.
  run.
  rewrite bool_decide_eq_false_2 by congruence. simpl.
  rewrite Hrow. rewrite (bool_decide_eq_false_2 (Some row = None)) by done.
  simpl.
  destruct (user_profiles w !! uid target) as [p|] eqn:Hp.
  - rewrite (bool_decide_eq_true_2 (is_Some (Some p))) by eauto. simpl.
    rewrite lookup_alter_eq, Hp. simpl.
    eexists. split; [reflexivity|]. by repeat split.
  - rewrite (bool_decide_eq_false_2 (is_Some None)) by (by intros [? ?]). simpl.
    rewrite Hp. rewrite (bool_decide_eq_false_2 (is_Some None)) by (by intros [? ?]).
    simpl. eexists. split; [reflexivity|]. by repeat split.
Qed.

(** X14. A soft delete does not revoke the target's tokens: a refresh
    token that was live before [delete_user] is live afterwards and
    [refresh_token] keeps answering it with new access tokens, because
    neither looks at the user table.  [get_user_from_token] does look:
    for every access token of the deleted user that [verify_token] still
    accepts, it fails with 'Usuario no encontrado o inactivo'. *)
Theorem soft_delete_keeps_tokens `{Catalogs} (w : World) (requester target : User)
    (claims : Payload) :
  uid requester ≠ uid target →
  gate_passes w (Authenticated requester) "auth.delete_user" →
  is_Some (auth_user w !! uid target) →
  live_refresh_token w claims →
  let w' := world_of (users_services.UserService.delete_user
                        (Authenticated requester) target w) in
  live_refresh_token w' claims ∧
  (∃ access, outcome (auth_services.AuthService.refresh_token (Signed true claims) w')
             = inr {[ "access" := Signed true access ]} ∧
             user_id access = user_id claims) ∧
  (∀ token data,
     outcome (auth_services.AuthService.verify_token token w') = inr data →
     auth_services.verify_user_id data = uid target →
     outcome (auth_service_ops.get_user_from_token token w')
     = inl UserNotFoundOrInactive).
Proof.
  intros Hother Hgate Hrow (Htype & Hexp & Hfree) w'. subst w'.
  destruct (delete_user_run w requester target Hother Hgate Hrow)
    as (w' & -> & Hnow & Hlist & _ & Husers & _).
  unfold world_of. simpl.
  assert (live_refresh_token w' claims) as Hlive.
  { unfold live_refresh_token. by rewrite Hnow, Hlist. }
  split; [done|]. split.
  - rewrite (refresh_token_live w' claims Hlive). unfold outcome. simpl.
    eexists. by split.
  - intros token data Hverify Hid.
    rewrite get_user_from_token_run, Hverify. unfold outcome. simpl.
    by rewrite Hid, Husers, lookup_insert_eq.
Qed.

Lemma soft_delete_keeps_tokens_witness :
  let w' := world_of (users_services.UserService.delete_user
                        (Authenticated demo.admin) demo.alice demo.world) in
  (∃ access, outcome (@auth_services.AuthService.refresh_token demo.catalogs demo.alice_refresh w')
             = inr {[ "access" := Signed true access ]} ∧ user_id access = 2%nat) ∧
  outcome (@auth_service_ops.get_user_from_token demo.catalogs demo2.alice_access w')
  = inl UserNotFoundOrInactive.
Proof.
  intros w'.
  destruct (@soft_delete_keeps_tokens demo.catalogs demo.world demo.admin demo.alice
              (mkPayload refresh_type 2 1300 77))
    as (_ & Hrefresh & Hlookup).
  - vm_compute. discriminate.
  - vm_compute. reflexivity.
  - vm_compute. by eexists.
  - split; [reflexivity|]. split; [reflexivity|]. simpl. set_solver.
  - split; [exact Hrefresh|].
    apply (Hlookup demo2.alice_access (auth_services.mkVerify true 2 1120));
      reflexivity.
Defined.

Lemma create_user_run self_user validated_data w :
  outcome (users_services.UserService.create_user self_user validated_data w) =
    if bool_decide ("auth.add_user" ∈ resolve w self_user)
    then if bool_decide (users_services.UserService.max_users ≤ active_principals w)%nat
         then inl QuotaExceeded else inr validated_data
    else inl (missing_permission "auth.add_user").
Proof.
  unfold users_services.UserService.create_user. open_gate_goal c.
  destruct (bool_decide (_ ∈ _)); [|reflexivity].
  unfold django.User_objects_filter_active_count, active_principals. run.
  by case_bool_decide.
Qed.

(** X15. The quota of [create_user] counts active accounts only, so a
    soft delete frees a place: deleting a stored active account lowers the
    count by one, and when the count was exactly at the ceiling a permitted
    requester, refused with the quota error before the delete, gets the
    validated data back after it. *)
Theorem delete_user_frees_quota (w : World) (requester target row : User)
    (creator : RequestUser) (validated_data : users_services.ValidatedData) :
  uid requester ≠ uid target →
  gate_passes w (Authenticated requester) "auth.delete_user" →
  auth_user w !! uid target = Some row →
  is_active row = true →
  let w' := world_of (users_services.UserService.delete_user
                        (Authenticated requester) target w) in
  S (active_principals w') = active_principals w ∧
  (active_principals w = users_services.UserService.max_users →
   gate_passes w creator "auth.add_user" →
   gate_passes w' creator "auth.add_user" →
   outcome (users_services.UserService.create_user creator validated_data w)
   = inl QuotaExceeded ∧
   outcome (users_services.UserService.create_user creator validated_data w')
   = inr validated_data).
Proof.
  intros Hother Hgate Hrow Hactive w'. subst w'.
  destruct (delete_user_run w requester target Hother Hgate)
    as (w' & -> & _ & _ & _ & Husers & _); [by eexists|].
  unfold world_of. simpl.
  assert (S (active_principals w') = active_principals w) as Hcount.
  { unfold active_principals. rewrite Husers.
    rewrite map_filter_insert_False by (simpl; discriminate).
    rewrite map_filter_delete, map_size_delete.
    assert (filter (λ kv : nat * User, is_active kv.2 = true) (auth_user w)
              !! uid target = Some row) as Hin
      by (by apply map_lookup_filter_Some).
    rewrite Hin.
    assert (size (filter (λ kv : nat * User, is_active kv.2 = true) (auth_user w)) ≠ 0%nat)
      as Hpos.
    { intros Hzero. apply map_size_empty_inv in Hzero. by rewrite Hzero in Hin. }
    lia. }
  split; [done|]. intros Hfull Hbefore Hafter.
  apply gate_passes_iff in Hbefore, Hafter.
  rewrite !create_user_run.
  rewrite (bool_decide_eq_true_2 _ Hbefore), (bool_decide_eq_true_2 _ Hafter).
  rewrite bool_decide_eq_true_2 by lia.
  by rewrite bool_decide_eq_false_2 by lia.
Qed.

Lemma delete_user_frees_quota_witness :
  let w' := world_of (users_services.UserService.delete_user
                        (Authenticated demo.admin)
                        (mkUser 2 "user2" "" true false None) demo.crowded) in
  outcome (users_services.UserService.create_user (Authenticated demo.admin)
             (users_services.mkValidated (Some true) None ∅) demo.crowded)
  = inl QuotaExceeded ∧
  outcome (users_services.UserService.create_user (Authenticated demo.admin)
             (users_services.mkValidated (Some true) None ∅) w')
  = inr (users_services.mkValidated (Some true) None ∅).
Proof.
  intros w'.
  destruct (delete_user_frees_quota demo.crowded demo.admin
              (mkUser 2 "user2" "" true false None)
              (mkUser 2 "user2" "" true false None)
              (Authenticated demo.admin)
              (users_services.mkValidated (Some true) None ∅))
    as (_ & Hquota).
  - vm_compute. discriminate.
  - vm_compute. reflexivity.
  - vm_compute. reflexivity.
  - reflexivity.
  - apply Hquota; vm_compute; reflexivity.
Defined.

Section passwords.
Context `{PasswordHasher} `{Catalogs}.

Lemma principal_named_update w w' name (u u' : User) :
  rows_keyed w → principal_named w name u →
  uid u' = uid u → username u' = username u →
  auth_user w' = <[uid u := u']> (auth_user w) →
  principal_named w' name u'.
Proof.
  intros Hkeyed (Hrow & Hname & Hunique) Hid Huname Husers.
  split; [|split].
  - by rewrite Husers, Hid, lookup_insert_eq.
  - congruence.
  - intros id v Hv Hvname. rewrite Husers in Hv.
    destruct (decide (uid u = id)) as [<-|Hne].
    + rewrite lookup_insert_eq in Hv. congruence.
    + rewrite lookup_insert_ne in Hv by done.
      pose proof (Hunique id v Hv Hvname) as ->.
      by destruct Hne; apply Hkeyed.
Qed.

(** X16. Once an account is soft-deleted nobody can log in to it: with
    any password, the right one included, [login] fails with the generic
    'Credenciales inválidas' and changes nothing. *)
Theorem deleted_user_cannot_login (w : World) (requester target : User)
    (name raw_password : string) :
  uid requester ≠ uid target →
  gate_passes w (Authenticated requester) "auth.delete_user" →
  rows_keyed w →
  principal_named w name target →
  let w' := world_of (users_services.UserService.delete_user
                        (Authenticated requester) target w) in
  auth_services.AuthService.login name raw_password w' = (w', inl InvalidCredentials).
Proof.
  intros Hother Hgate Hkeyed Hnamed w'. subst w'.
  destruct (delete_user_run w requester target Hother Hgate)
    as (w' & -> & _ & _ & _ & Husers & _).
  { destruct Hnamed as (Hrow & _). by eexists. }
  unfold world_of. simpl.
  assert (principal_named w' name (with_is_active false target)) as Hnamed'
    by (by apply (principal_named_update w w' name target)).
  unfold auth_services.AuthService.login. unfold bind at 1.
  rewrite (authenticate_found w' name raw_password _ Hnamed'). simpl.
  by rewrite andb_false_r.
Qed.

Lemma change_password_run (user : User) old_password new_password w :
  auth_user w !! uid user = Some user →
  auth_backend.check_password user old_password = true →
  ∃ w', auth_service_ops.PasswordService.change_password user old_password
          new_password w = (w', inr tt) ∧
    now w' = now w ∧ blacklistedtoken w' = blacklistedtoken w ∧
    auth_user w' = <[uid user := with_password (make_password new_password) user]>
                     (auth_user w).
Proof.
  intros Hrow Hright.
  unfold auth_service_ops.PasswordService.change_password. rewrite Hright. simpl.
  unfold models.User_save, models.create_user_profile, models.save_user_profile,
    models.has_profile, models.UserProfile_save.
  run. rewrite Hrow. rewrite (bool_decide_eq_false_2 (Some user = None)) by done.
  simpl. destruct (bool_decide (is_Some _)); simpl;
    eexists; (split; [reflexivity|]); by repeat split.
Qed.

(** X17. [change_password] with a wrong current password fails with
    'Password actual incorrecto' and changes nothing.  With the right one
    it stores the hash of the new password in the user's row, after which
    the authentication backend accepts, for that username, exactly the
    passwords whose hash is the new one: the new password opens the
    account and the old one no longer does unless it hashes alike. *)
Theorem change_password_round_trip (user : User) (name old_password new_password : string)
    (w : World) :
  (auth_backend.check_password user old_password = false →
   auth_service_ops.PasswordService.change_password user old_password new_password w
   = (w, inl WrongOldPassword)) ∧
  (auth_backend.check_password user old_password = true →
   rows_keyed w → principal_named w name user → is_active user = true →
   let w' := world_of (auth_service_ops.PasswordService.change_password
                         user old_password new_password w) in
   outcome (auth_service_ops.PasswordService.change_password
              user old_password new_password w) = inr tt ∧
   auth_user w' !! uid user = Some (with_password (make_password new_password) user) ∧
   ∀ candidate,
     auth_backend.authenticate name candidate w' =
       (w', inr (if bool_decide (make_password candidate = make_password new_password)
                 then Some (with_password (make_password new_password) user)
                 else None))).
Proof.
  split.
  - intros Hwrong. unfold auth_service_ops.PasswordService.change_password.
    by rewrite Hwrong.
  - intros Hright Hkeyed Hnamed Hactive w'. subst w'.
    destruct (change_password_run user old_password new_password w)
      as (w' & -> & _ & _ & Husers); [by destruct Hnamed|done|].
    unfold world_of, outcome. simpl. split; [done|].
    split; [by rewrite Husers, lookup_insert_eq|].
    intros candidate.
    assert (principal_named w' name (with_password (make_password new_password) user))
      as Hnamed' by (by apply (principal_named_update w w' name user)).
    rewrite (authenticate_found w' name candidate _ Hnamed').
    unfold auth_backend.check_password. simpl. rewrite Hactive.
    by rewrite andb_true_r.
Qed.

(** X18. Changing a password ends no session: whether the call succeeds
    or fails, the revocation set and the clock are as before, so every
    refresh token that was live stays live and is still accepted by
    [refresh_token]. *)
Theorem change_password_keeps_sessions (user : User) (old_password new_password : string)
    (w : World) (claims : Payload) :
  live_refresh_token w claims →
  let w' := world_of (auth_service_ops.PasswordService.change_password
                        user old_password new_password w) in
  blacklistedtoken w' = blacklistedtoken w ∧
  live_refresh_token w' claims ∧
  ∃ response, outcome (auth_services.AuthService.refresh_token (Signed true claims) w')
              = inr response.
Proof.
  intros Hlive w'. subst w'.
  assert (now (world_of (auth_service_ops.PasswordService.change_password
                           user old_password new_password w)) = now w ∧
          blacklistedtoken (world_of (auth_service_ops.PasswordService.change_password
                                        user old_password new_password w))
          = blacklistedtoken w) as [Hnow Hlist].
  { unfold auth_service_ops.PasswordService.change_password.
    destruct (auth_backend.check_password user old_password); simpl; [|done].
    unfold models.User_save, models.create_user_profile, models.save_user_profile,
      models.has_profile, models.UserProfile_save.
    run. by repeat (case_bool_decide; simpl). }
  assert (live_refresh_token
            (world_of (auth_service_ops.PasswordService.change_password
                         user old_password new_password w)) claims) as Hlive'.
  { unfold live_refresh_token. destruct Hlive as (? & ? & ?).
    by rewrite Hnow, Hlist. }
  split; [done|]. split; [done|].
  rewrite (refresh_token_live _ claims Hlive'). by eexists.
Qed.

End passwords.

Lemma demo_rows_keyed : rows_keyed demo.world.
Proof.
  intros k u Hrow.
  assert ((k, u) ∈ map_to_list (auth_user demo.world)) as Hin
    by (by apply elem_of_map_to_list).
  vm_compute in Hin.
  repeat (apply elem_of_cons in Hin as [[= -> ->] | Hin]; [reflexivity|]).
  by apply elem_of_nil in Hin.
Defined.

Lemma deleted_user_cannot_login_witness :
  let w' := world_of (users_services.UserService.delete_user
                        (Authenticated demo.admin) demo.alice demo.world) in
  @auth_services.AuthService.login demo.hasher "alice" "alice123" w'
  = (w', inl InvalidCredentials).
Proof.
  intros w'.
  apply (@deleted_user_cannot_login demo.hasher demo.world demo.admin demo.alice).
  - vm_compute. discriminate.
  - vm_compute. reflexivity.
  - exact demo_rows_keyed.
  - apply (demo_principal_named demo.alice). reflexivity.
Defined.

Lemma change_password_round_trip_witness :
  let w' := world_of (@auth_service_ops.PasswordService.change_password demo.hasher
                        demo.alice "alice123" "n3w-secret" demo.world) in
  outcome (@auth_backend.authenticate demo.hasher "alice" "n3w-secret" w')
  = inr (Some (with_password "pbkdf2_sha256$n3w-secret" demo.alice)) ∧
  outcome (@auth_backend.authenticate demo.hasher "alice" "alice123" w') = inr None.
Proof.
  intros w'.
  destruct (@change_password_round_trip demo.hasher demo.alice "alice"
              "alice123" "n3w-secret" demo.world) as [_ Hok].
  destruct Hok as (_ & _ & Hauth).
  - reflexivity.
  - exact demo_rows_keyed.
  - apply (demo_principal_named demo.alice). reflexivity.
  - reflexivity.
  - split.
    + etransitivity; [exact (f_equal snd (Hauth "n3w-secret"))|]. reflexivity.
    + etransitivity; [exact (f_equal snd (Hauth "alice123"))|]. reflexivity.
Defined.

Lemma change_password_keeps_sessions_witness :
  let w' := world_of (@auth_service_ops.PasswordService.change_password demo.hasher
                        demo.alice "alice123" "n3w-secret" demo.world) in
  ∃ response, outcome (@auth_services.AuthService.refresh_token demo.catalogs demo.alice_refresh w')
              = inr response.
Proof.
  intros w'.
  destruct (@change_password_keeps_sessions demo.hasher demo.catalogs demo.alice
              "alice123" "n3w-secret" demo.world (mkPayload refresh_type 2 1300 77))
    as (_ & _ & Hrefresh).
  - split; [reflexivity|]. split; [reflexivity|]. simpl. set_solver.
  - exact Hrefresh.
Defined.

(** ** Further properties: update, roles, profiles *)

(** X19. [update_user] only validates: whatever its outcome it changes
    no stored record, a successful call hands back the validated data it
    was given, and for a requester holding 'auth.change_user' who acts on
    another account it always succeeds, whatever the changes are: the
    self-protection rules restrict nobody but the account's owner. *)
Theorem update_user_validates_only (w : World) (self_user : RequestUser)
    (target : User) (changes : users_services.ValidatedData) :
  let result := users_services.UserService.update_user self_user target changes w in
  same_records w (world_of result) ∧
  (∀ data, outcome result = inr data → data = changes) ∧
  (∀ requester, self_user = Authenticated requester →
     uid requester ≠ uid target →
     gate_passes w self_user "auth.change_user" →
     outcome result = inr changes).
Proof.
  intros result. subst result. unfold users_services.UserService.update_user.
  open_gate_goal c.
  destruct (bool_decide ("auth.change_user" ∈ resolve w self_user)) eqn:Hgate.
  - unfold users_services.self_user_id, django.Group_objects_filter_name_first.
    destruct self_user as [| |requester]; run.
    + split; [apply same_records_set_cache|]. split; [discriminate|].
      intros requester [=].
    + split; [apply same_records_set_cache|]. split; [by intros data [= <-]|].
      intros requester [=].
    + destruct (bool_decide (Some (uid target) = Some (uid requester))) eqn:Hsame;
        destruct (bool_decide (users_services.vd_is_active changes = Some false));
        destruct (bool_decide (is_Some (users_services.vd_group_ids changes)));
        simpl; try destruct (elements _) as [|i rest]; simpl;
        try destruct (_ && _); simpl.
      all: split; [apply same_records_set_cache|].
      all: split; [first [discriminate | by intros data [= <-]]|].
      all: intros requester' [= <-] Hother _.
      all: first [reflexivity | apply bool_decide_eq_true in Hsame; congruence].
  - split; [apply same_records_set_cache|]. split; [discriminate|].
    intros requester _ _ Hpass. apply gate_passes_iff in Hpass.
    by rewrite (bool_decide_eq_true_2 _ Hpass) in Hgate.
Qed.

Lemma update_user_validates_only_witness :
  outcome (users_services.UserService.update_user (Authenticated demo.admin) demo.root
             (users_services.mkValidated (Some false) (Some []) ∅) demo.world)
  = inr (users_services.mkValidated (Some false) (Some []) ∅).
Proof.
  destruct (update_user_validates_only demo.world (Authenticated demo.admin) demo.root
              (users_services.mkValidated (Some false) (Some []) ∅))
    as (_ & _ & Hother).
  apply (Hother demo.admin eq_refl).
  - vm_compute. discriminate.
  - vm_compute. reflexivity.
Defined.

(** X20. [assign_role] and [remove_role] do not handle a missing group:
    for an id without a group row, a requester holding 'auth.change_user'
    gets the unhandled [Group.DoesNotExist], any other caller the
    permission failure, and in both cases no stored record changes. *)
Theorem role_change_unknown_group (grant : bool) (w : World) (self_user : RequestUser)
    (P : User) (group_id : nat) :
  auth_group w !! group_id = None →
  let result :=
    if grant
    then users_services.UserPermissionService.assign_role self_user P group_id w
    else users_services.UserPermissionService.remove_role self_user P group_id w in
  same_records w (world_of result) ∧
  outcome result = inl (if bool_decide ("auth.change_user" ∈ resolve w self_user)
                        then DoesNotExist "Group"
                        else missing_permission "auth.change_user").
Proof.
  intros Hnone result. subst result.
  destruct grant;
    [unfold users_services.UserPermissionService.assign_role
    |unfold users_services.UserPermissionService.remove_role].
  all: open_gate_goal c.
  all: destruct (bool_decide (_ ∈ _));
    [|split; [apply same_records_set_cache|reflexivity]].
  all: do 2 (unfold bind at 1; rewrite group_get_run; simpl; rewrite Hnone; simpl).
  all: split; [apply same_records_set_cache|reflexivity].
Qed.

Lemma role_change_unknown_group_witness :
  outcome (users_services.UserPermissionService.assign_role
             (Authenticated demo.admin) demo.alice 9 demo.world)
  = inl (DoesNotExist "Group").
Proof.
  destruct (role_change_unknown_group true demo.world (Authenticated demo.admin)
              demo.alice 9) as (_ & Hout); [reflexivity|].
  etransitivity; [exact Hout|]. vm_compute. reflexivity.
Defined.

(** X21. Role grants compose as set operations on the memberships of the
    target and touch nobody else's: granting a role twice leaves what one
    grant leaves, and a grant followed by the revocation of the same role
    leaves the original memberships without that role, hence the original
    memberships when the role was not held before. *)
Theorem assign_remove_round_trip (w w1 : World) (self_user : RequestUser)
    (P : User) (group_id : nat) :
  users_services.UserPermissionService.assign_role self_user P group_id w = (w1, inr tt) →
  (∀ self' w2,
     users_services.UserPermissionService.assign_role self' P group_id w1 = (w2, inr tt) →
     auth_user_groups w2 !!! uid P = auth_user_groups w1 !!! uid P) ∧
  (∀ self' w2,
     users_services.UserPermissionService.remove_role self' P group_id w1 = (w2, inr tt) →
     auth_user_groups w2 !!! uid P = (auth_user_groups w !!! uid P) ∖ {[group_id]} ∧
     (group_id ∉ auth_user_groups w !!! uid P →
      auth_user_groups w2 !!! uid P = auth_user_groups w !!! uid P) ∧
     (∀ other, other ≠ uid P →
        auth_user_groups w2 !!! other = auth_user_groups w !!! other)).
Proof.
  intros Hassign.
  destruct (role_change_run true self_user P group_id w w1 Hassign) as (c & ->).
  split.
  - intros self' w2 Hagain.
    destruct (role_change_run true self' P group_id _ w2 Hagain) as (c' & ->).
    simpl. rewrite !lookup_total_insert_eq.
    apply set_eq. intros x. rewrite !elem_of_union. tauto.
  - intros self' w2 Hremove.
    destruct (role_change_run false self' P group_id _ w2 Hremove) as (c' & ->).
    simpl. rewrite !lookup_total_insert_eq.
    split; [|split].
    { apply set_eq. intros x.
      rewrite !elem_of_difference, !elem_of_union. tauto. }
    { intros Hnew. apply set_eq. intros x.
      rewrite !elem_of_difference, !elem_of_union, !elem_of_singleton.
      split; [tauto|]. intros Hx. split; [tauto|]. by intros ->. }
    intros other Hother. by rewrite !lookup_total_insert_ne.
Qed.

Lemma assign_remove_round_trip_witness :
  let w1 := world_of (users_services.UserPermissionService.assign_role
                        (Authenticated demo.admin) demo.alice 2 demo.world) in
  let w2 := world_of (users_services.UserPermissionService.remove_role
                        (Authenticated demo.admin) demo.alice 2 w1) in
  auth_user_groups w2 !!! 2%nat = auth_user_groups demo.world !!! 2%nat.
Proof.
  intros w1 w2.
  destruct (assign_remove_round_trip demo.world w1 (Authenticated demo.admin)
              demo.alice 2) as [_ Hremove]; [vm_compute; reflexivity|].
  destruct (Hremove (Authenticated demo.admin) w2) as (_ & Hback & _);
    [vm_compute; reflexivity|].
  apply Hback. vm_compute. set_solver.
Defined.

(** X22. Soft delete and restore are inverse on a profile that was not
    deleted: [restore] after [delete] gives back the very world the
    [delete] started from, while in between the profile is marked deleted
    with the instant of the delete. *)
Theorem soft_delete_restore_round_trip (id : nat) (p : UserProfile) (w : World) :
  user_profiles w !! id = Some p →
  deleted_at p = None →
  let w1 := world_of (models.SoftDeleteModel.delete id w) in
  (∃ p1, user_profiles w1 !! id = Some p1 ∧ deleted_at p1 = Some (now w)
         ∧ models.SoftDeleteModel.is_deleted p1 = true) ∧
  world_of (models.SoftDeleteModel.restore id w1) = w.
Proof.
  intros Hp Hlive w1. subst w1.
  unfold models.SoftDeleteModel.delete, models.SoftDeleteModel.restore. run.
  split.
  - rewrite lookup_alter_eq, Hp. by eexists.
  - destruct w as [t users groups direct roles perms profiles revoked store seed].
    unfold set_user_profiles. simpl in *. f_equal.
    apply map_eq. intros k. destruct (decide (k = id)) as [->|Hne].
    + rewrite !lookup_alter_eq, Hp. simpl. destruct p. simpl in *. by subst.
    + by rewrite !lookup_alter_ne.
Qed.

Lemma soft_delete_restore_round_trip_witness :
  world_of (models.SoftDeleteModel.restore 2
              (world_of (models.SoftDeleteModel.delete 2 demo.world))) = demo.world.
Proof.
  destruct (soft_delete_restore_round_trip 2 (mkProfile 0 0 None) demo.world)
    as [_ Hback]; [reflexivity | reflexivity | exact Hback].
Defined.

Lemma is_Some_alter {A} (f : A → A) (m : gmap nat A) k i :
  is_Some (alter f k m !! i) ↔ is_Some (m !! i).
Proof.
  destruct (decide (k = i)) as [->|Hne].
  - rewrite lookup_alter_eq. by rewrite fmap_is_Some.
  - by rewrite lookup_alter_ne.
Qed.

Lemma User_save_run (instance : User) w :
  ∃ profiles,
    models.User_save instance w =
      (set_user_profiles profiles
         (set_auth_user (<[uid instance := instance]> (auth_user w)) w), inr tt) ∧
    ∀ k, is_Some (profiles !! k) ↔
         is_Some (user_profiles w !! k) ∨
         (k = uid instance ∧ auth_user w !! uid instance = None).
Proof.
  unfold models.User_save, models.create_user_profile, models.save_user_profile,
    models.has_profile, models.UserProfile_save.
  run.
  destruct (auth_user w !! uid instance) as [row|] eqn:Hrow; simpl.
  - destruct (bool_decide (is_Some (user_profiles w !! uid instance))); simpl.
    + eexists. split; [reflexivity|]. intros k. rewrite is_Some_alter.
      split; [by left | by intros [?|[_ ?]]].
    + exists (user_profiles w). split; [by destruct w|].
      intros k. split; [by left | by intros [?|[_ ?]]].
  - rewrite lookup_insert_eq. simpl.
    eexists. split; [reflexivity|]. intros k. rewrite is_Some_alter.
    destruct (decide (uid instance = k)) as [<-|Hne].
    + rewrite lookup_insert_eq. split; [by right | by eexists].
    + rewrite lookup_insert_ne by done.
      split; [by left | intros [?|[-> _]]; done].
Qed.

Lemma User_save_profiles_complete (instance : User) w :
  profiles_complete w → profiles_complete (world_of (models.User_save instance w)).
Proof.
  intros Hcomplete.
  destruct (User_save_run instance w) as (profiles & -> & Hprofiles).
  unfold world_of. simpl. intros id Hid. simpl in *. apply Hprofiles.
  destruct (decide (uid instance = id)) as [<-|Hne].
  - destruct (auth_user w !! uid instance) as [row|] eqn:Hrow.
    + left. apply Hcomplete. by eexists.
    + by right.
  - left. apply Hcomplete. by rewrite lookup_insert_ne in Hid.
Qed.

Section profiles.
Context `{PasswordHasher} `{Catalogs}.

Lemma authenticate_world name raw_password w :
  ∃ r, auth_backend.authenticate name raw_password w = (w, inr r).
Proof.
  unfold auth_backend.authenticate, auth_backend.get_by_natural_key. run.
  destruct (head _) as [u|]; simpl; [|by eexists].
  destruct (_ && _); by eexists.
Qed.

(** X23. Every stored user keeps its profile: if each row of [auth_user]
    has a profile row, this is still so after [user.save()] of any user
    object, new or old, after a login attempt, after a password change and
    after [delete_user], whatever their arguments and outcome. *)
Theorem profiles_complete_kept (w : World) :
  profiles_complete w →
  (∀ instance, profiles_complete (world_of (models.User_save instance w))) ∧
  (∀ name raw_password,
     profiles_complete (world_of (auth_services.AuthService.login name raw_password w))) ∧
  (∀ user old_password new_password,
     profiles_complete (world_of (auth_service_ops.PasswordService.change_password
                                    user old_password new_password w))) ∧
  (∀ self_user target,
     profiles_complete (world_of (users_services.UserService.delete_user
                                    self_user target w))).
Proof.
  intros Hcomplete. split; [|split; [|split]].
  - intros instance. by apply User_save_profiles_complete.
  - intros name raw_password. unfold auth_services.AuthService.login.
    unfold bind at 1.
    destruct (authenticate_world name raw_password w) as ([user|] & ->); [|done].
    destruct (is_active user); simpl; [|done].
    unfold simplejwt.for_user, simplejwt.access_token, simplejwt.set_jti,
      models.User_save_last_login, models.create_user_profile,
      models.save_user_profile, models.has_profile, models.UserProfile_save.
    run. case_bool_decide; simpl; intros id Hid.
    + apply is_Some_alter, Hcomplete. by apply is_Some_alter in Hid.
    + apply Hcomplete. by apply is_Some_alter in Hid.
  - intros user old_password new_password.
    unfold auth_service_ops.PasswordService.change_password.
    destruct (auth_backend.check_password user old_password); simpl; [|done].
    by apply User_save_profiles_complete.
  - intros self_user target. unfold users_services.UserService.delete_user.
    open_gate_goal c.
    destruct (bool_decide (_ ∈ _)); [|done].
    unfold users_services.transaction_atomic, users_services.self_user_id.
    destruct self_user as [| |requester]; unfold bind at 1; simpl; try done.
    all: try (case_bool_decide; [done|]).
    all: pose proof (User_save_profiles_complete
           (mkUser (uid target) (username target) (password target) false
              (is_superuser target) (last_login target)) (set_cache c w) Hcomplete)
           as Hsaved.
    all: unfold world_of in Hsaved; unfold bind at 1.
    all: destruct (models.User_save _ (set_cache c w)) as [w1 [e|[]]]; simpl in *;
      [exact Hcomplete|].
    all: unfold models.has_profile, models.SoftDeleteModel.delete,
           core_permissions.invalidate_user_permissions_cache,
           django.cache_api.delete; run.
    all: case_bool_decide; simpl; intros id Hid; [apply is_Some_alter|];
      by apply Hsaved.
Qed.

End profiles.

Lemma demo_profiles_complete : profiles_complete demo.world.
Proof.
  intros id [u Hrow].
  assert ((id, u) ∈ map_to_list (auth_user demo.world)) as Hin
    by (by apply elem_of_map_to_list).
  vm_compute in Hin.
  repeat (apply elem_of_cons in Hin as [[= -> ->] | Hin]; [by eexists|]).
  by apply elem_of_nil in Hin.
Defined.

Lemma profiles_complete_kept_witness :
  profiles_complete
    (world_of (models.User_save (mkUser 9 "carol" "" true false None) demo.world)).
Proof.
  destruct (@profiles_complete_kept demo.hasher demo.world demo_profiles_complete)
    as (Hsave & _).
  apply Hsave.
Defined.

(** ** Further properties: the gate, the decorator and the cache *)

(** A second resolution right after a first one is served from the
    cache and returns the same set. *)
Lemma resolver_twice (u : User) w :
  ∃ c, core_permissions.get_user_permissions_cached (Authenticated u) w
       = (set_cache c w, inr (resolve w (Authenticated u))) ∧
       core_permissions.get_user_permissions_cached (Authenticated u) (set_cache c w)
       = (set_cache c w, inr (resolve w (Authenticated u))).
Proof.
  unfold resolve. rewrite (core_resolver_run u w).
  destruct (live_entry (cache w) (now w) (uid u)) as [v|] eqn:Hlive.
  - exists (cache w). rewrite set_cache_id, core_resolver_run, Hlive. by split.
  - eexists. split; [reflexivity|]. rewrite core_resolver_run.
    unfold live_entry. simpl. rewrite lookup_insert_eq.
    by rewrite bool_decide_eq_true_2 by lia.
Qed.

(** X24. For a principal that is not a superuser, the gate of a view and
    the decorator of the service method behind it decide from the same
    resolved set: when the view requires the single permission [perm] for
    its action, the permission test of the decorator, run in the world the
    gate leaves, gives the gate's answer.  A request the gate admits is
    not refused by the decorator, and conversely. *)
Theorem gate_agrees_with_decorator (w : World) (u : User)
    (view : core_permissions.View) (perm : string) :
  is_superuser u = false →
  core_permissions.action view ≠ Some "" →
  required_for view = Some [perm] →
  let gate := core_permissions.HasPermission.has_permission (Authenticated u) view w in
  outcome (core_permissions.has_permission (Authenticated u) perm (world_of gate))
  = outcome gate.
Proof.
  intros Hplain Hname Hrequired gate. subst gate.
  unfold required_for in Hrequired.
  unfold core_permissions.HasPermission.has_permission. rewrite Hplain.
  destruct (core_permissions.action view) as [a|] eqn:Ha; simpl in Hrequired; [|done].
  assert (a ≠ "") as Hne by congruence.
  cbn [core_permissions.truthy_action negb]. rewrite (bool_decide_eq_false_2 _ Hne).
  cbn [negb mbind option_bind].
  destruct (default ∅ (core_permissions.required_permissions view) !! a)
    as [declared|] eqn:Hd; simpl in Hrequired; [|done].
  assert (match declared with
          | core_permissions.PermStr s => [s]
          | core_permissions.PermList l => l
          end = [perm]) as -> by congruence.
  destruct (resolver_twice u w) as (c & Hfirst & Hsecond).
  unfold bind at 2. rewrite Hfirst.
  unfold bind at 1. rewrite Hfirst. unfold ret, world_of, outcome. simpl fst. simpl snd.
  unfold core_permissions.has_permission, bind. rewrite Hsecond. simpl.
  by rewrite andb_true_r.
Qed.

Lemma gate_agrees_with_decorator_witness :
  let gate := core_permissions.HasPermission.has_permission
                (Authenticated demo.admin) (user_views.UserViewSet "destroy")
                demo.world in
  outcome gate = inr true ∧
  outcome (core_permissions.has_permission (Authenticated demo.admin)
             "auth.delete_user" (world_of gate)) = inr true.
Proof.
  intros gate. split; [vm_compute; reflexivity|].
  etransitivity.
  - apply (gate_agrees_with_decorator demo.world demo.admin
             (user_views.UserViewSet "destroy") "auth.delete_user").
    + reflexivity.
    + discriminate.
    + vm_compute. reflexivity.
  - vm_compute. reflexivity.
Defined.

(** X25. The report of [get_user_effective_permissions] mixes two
    sources: its roles are the names of the groups the user is a member of
    in the tables at the time of the call, while its permissions are
    whatever the resolver serves, a live cache entry first.  The call
    never raises and changes no table. *)
Theorem effective_permissions_report (user_instance : User) (w : World) :
  ∃ w' report,
    permission_service_ops.get_user_effective_permissions user_instance w
    = (w', inr report) ∧
    same_records w w' ∧
    (∀ perm, perm ∈ permission_service_ops.ep_permissions report
             ↔ perm ∈ resolve w (Authenticated user_instance)) ∧
    (∀ name, name ∈ permission_service_ops.ep_roles report
             ↔ ∃ gid g, gid ∈ auth_user_groups w !!! uid user_instance ∧
                        auth_group w !! gid = Some g ∧ group_name g = name) ∧
    permission_service_ops.ep_is_superuser report = is_superuser user_instance.
Proof.
  unfold permission_service_ops.get_user_effective_permissions. unfold bind at 1.
  destruct (get_user_permissions_cached_total (Authenticated user_instance) w)
    as (c & ->).
  unfold permission_service_ops.group_names. run.
  eexists _, _. split; [reflexivity|]. split; [apply same_records_set_cache|].
  simpl. split; [|split; [|done]].
  - intros perm. by rewrite elem_of_elements.
  - intros name. rewrite list_elem_of_omap. split.
    + intros (gid & Hgid & Hname). apply elem_of_elements in Hgid.
      destruct (auth_group w !! gid) as [g|] eqn:Hg; [|done].
      injection Hname as <-. by exists gid, g.
    + intros (gid & g & Hgid & Hg & <-). exists gid.
      split; [by apply elem_of_elements|]. by rewrite Hg.
Qed.

(** With [alice]'s stale entry still live, the report shows the cached
    permission although her only role no longer grants it. *)
Lemma effective_permissions_report_witness :
  ∃ w' report,
    permission_service_ops.get_user_effective_permissions demo.alice demo2.stale_world
    = (w', inr report) ∧
    "auth.delete_user" ∈ permission_service_ops.ep_permissions report ∧
    permission_service_ops.ep_roles report = ["Usuarios"].
Proof.
  destruct (effective_permissions_report demo.alice demo2.stale_world)
    as (w' & report & Hrun & _ & Hperms & _).
  exists w', report. split; [exact Hrun|]. split.
  - apply Hperms. vm_compute. set_solver.
  - vm_compute in Hrun. by injection Hrun as _ <-.
Defined.

(** X26. Cache entries exist for stored users only, and the operations
    that write the cache or the user table keep it so when the acting user
    object is a stored one: the resolvers, [get_or_compute], [warm_up],
    [invalidate_group], the role changes and [delete_user]. *)
Theorem cache_sound_kept (w : World) (self_user : RequestUser) :
  cache_sound w →
  requester_stored w self_user →
  cache_sound (world_of (core_permissions.get_user_permissions_cached self_user w)) ∧
  (∀ id, cache_sound (world_of (UserPermissionCache.get_or_compute id w))) ∧
  (∀ user_ids, cache_sound (world_of (cache_ops.warm_up user_ids w))) ∧
  (∀ group_id, cache_sound (world_of (cache_ops.invalidate_group group_id w))) ∧
  (∀ grant P group_id,
     cache_sound (world_of
       (if grant : bool
        then users_services.UserPermissionService.assign_role self_user P group_id w
        else users_services.UserPermissionService.remove_role self_user P group_id w))) ∧
  (∀ target, cache_sound (world_of (users_services.UserService.delete_user
                                      self_user target w))).
Proof.
  intros Hsound Hstored. repeat split.
  - by apply get_user_permissions_cached_cache_sound.
  - intros id. by apply get_or_compute_cache_sound.
  - intros user_ids. by apply (warm_up_keeps user_ids w).
  - intros group_id.
    destruct (invalidate_group_effect group_id w) as (w' & -> & Hsame & Hnone & Hsome).
    unfold world_of. simpl.
    destruct (auth_group w !! group_id) as [g|] eqn:Hg.
    + intros k [v Hk]. destruct Hsame as (_ & -> & _).
      rewrite (Hsome ltac:(by eexists) k) in Hk.
      case_bool_decide as Hmember; [done|]. apply Hsound. by eexists.
    + by rewrite (Hnone eq_refl).
  - intros grant P group_id. by apply role_change_cache_sound.
  - intros target. by apply delete_user_cache_sound.
Qed.

Lemma cache_sound_kept_witness :
  cache_sound (world_of (cache_ops.warm_up None demo.world)).
Proof.
  destruct (cache_sound_kept demo.world (Authenticated demo.admin))
    as (_ & _ & Hwarm & _).
  - intros id [v Hv]. vm_compute in Hv. discriminate.
  - vm_compute. by eexists.
  - apply Hwarm.
Defined.
